(** * Spendy expense tracker: ledger, registry and month view of src/App.js

    A shallow embedding of the core of [App] in src/App.js: the transaction
    records, the category registry, the derived month view
    ([isSameMonth], [getFilteredTransactions], [getTotals],
    [getGroupedTransactions]) and the mutating handlers
    ([handleAddTransaction], [handleAddNewCategory],
    [executeCategoryDeletion]).

    React state is modelled as an explicit record [AppState]; a handler is a
    function from the state (and its arguments) to the next state together
    with the [Alert.alert] message it raised, if any.

    JS numbers are abstracted by the class [JSNumber]; it is instantiated at
    [Z] (exact arithmetic) and at the kernel's IEEE-754 binary64 floats
    [PrimFloat.float], which is what a JS [Number] is. *)

From Stdlib Require Import ZArith Lia List Bool String Ascii Floats.
From Stdlib Require Import DecimalN Permutation.
Import ListNotations.
Open Scope Z_scope.

Local Set Warnings "-inexact-float".

(** ** JS numbers *)

(** The operations of a JS [Number] that the code uses: [0], [+], binary [-],
    the literals [-1] and [1] of the sort comparator, [<], and the
    [parseFloat] applied to the amount field; [js_is_nan] tells NaN apart,
    as the definition of [Array.prototype.sort] does. *)
Class JSNumber (num : Type) := {
  js_zero : num;
  js_add : num -> num -> num;
  js_sub : num -> num -> num;
  js_minus_one : num;
  js_one : num;
  js_ltb : num -> num -> bool;
  js_parseFloat : string -> num;
  js_is_nan : num -> bool
}.

(** Decimal digit value of an ASCII character, if it is one. *)
Definition digit_value (c : ascii) : option Z :=
  let n := Z.of_nat (nat_of_ascii c) in
  if (48 <=? n) && (n <=? 57) then Some (n - 48) else None.

(** The value of the longest prefix of decimal digits of [s], accumulated
    onto [acc]. *)
Fixpoint digits_prefix (s : string) (acc : Z) : Z :=
  match s with
  | EmptyString => acc
  | String c rest =>
      match digit_value c with
      | Some d => digits_prefix rest (10 * acc + d)
      | None => acc
      end
  end.

(** Exact integer numbers. [parseFloat] reads the leading decimal digits
    (Z has no NaN: a string with no leading digit reads as 0). *)
#[export] Instance JSNumber_Z : JSNumber Z := {
  js_zero := 0;
  js_add := Z.add;
  js_sub := Z.sub;
  js_minus_one := -1;
  js_one := 1;
  js_ltb := Z.ltb;
  js_parseFloat := fun s => digits_prefix s 0;
  js_is_nan := fun _ => false
}.

(** IEEE-754 binary64, the representation of a JS [Number]. [parseFloat]
    is modelled only on two kinds of input: a string that starts with a
    decimal digit reads as its leading run of digits (right for integer
    literals below 2^63; a fraction part, an exponent and longer digit runs
    are not modelled), and an ASCII string that starts with neither a digit,
    white space, a sign, a dot nor "Infinity" is NaN, as in JS. Leading
    white space, a sign or a leading dot (["  12"], ["-5"], [".5"]) are not
    modelled: they read as NaN here, where JS reads a number. *)
#[export] Instance JSNumber_float : JSNumber float := {
  js_zero := 0%float;
  js_add := PrimFloat.add;
  js_sub := PrimFloat.sub;
  js_minus_one := (-1)%float;
  js_one := 1%float;
  js_ltb := PrimFloat.ltb;
  js_parseFloat := fun s =>
    match s with
    | String c _ =>
        match digit_value c with
        | Some _ => PrimFloat.of_uint63 (Uint63.of_Z (digits_prefix s 0))
        | None => PrimFloat.nan
        end
    | EmptyString => PrimFloat.nan
    end;
  js_is_nan := PrimFloat.is_nan
}.

(** ** Calendar dates *)

(** A JS [Date] seen through its local-time getters: [getFullYear],
    [getMonth] (0 = January .. 11 = December) and [getDate]. The time of day
    is carried unchanged by [setDate] and is not needed here. The stored
    [dateISO] string is [toISOString()] of such a date; [new Date(dateISO)]
    gives back the same instant, so (as [isSameMonth] reads it) the stored
    value is modelled by the date itself. *)
Record Date := mkDate { year : Z; month : Z; day : Z }.

Definition is_leap (y : Z) : bool :=
  ((y mod 4 =? 0) && negb (y mod 100 =? 0)) || (y mod 400 =? 0).

(** Number of days of month [m] (0-based) of year [y], proleptic
    Gregorian calendar as used by JS. *)
Definition days_in_month (y m : Z) : Z :=
  if m =? 1 then (if is_leap y then 29 else 28)
  else if (m =? 3) || (m =? 5) || (m =? 8) || (m =? 10) then 30
  else 31.

Definition valid_date (d : Date) : Prop :=
  0 <= month d <= 11 /\ 1 <= day d <= days_in_month (year d) (month d).

Definition next_month (y m : Z) : Z * Z :=
  if m =? 11 then (y + 1, 0) else (y, m + 1).

Definition prev_month (y m : Z) : Z * Z :=
  if m =? 0 then (y - 1, 11) else (y, m - 1).

(** Normalisation of a day number that may lie outside month [m] of year
    [y], month by month, as [MakeDay] of ECMA-262 does: day 0 is the last
    day of the previous month, day [days_in_month + 1] the first of the
    next. *)
Fixpoint normalize_day (fuel : nat) (y m d : Z) : Date :=
  match fuel with
  | O => mkDate y m d
  | S fuel' =>
      if d <? 1 then
        let (y', m') := prev_month y m in
        normalize_day fuel' y' m' (d + days_in_month y' m')
      else if days_in_month y m <? d then
        let (y', m') := next_month y m in
        normalize_day fuel' y' m' (d - days_in_month y m)
      else mkDate y m d
  end.

(** [date.setDate(d)]: keeps the year and month of [date] and normalises
    day [d] into it. Every step moves by at least 28 days, so [|d| + 2]
    steps suffice. *)
Definition setDate (date : Date) (d : Z) : Date :=
  normalize_day (S (S (Z.to_nat (Z.abs d)))) (year date) (month date) d.

(** ** Transactions and categories *)

Inductive TxType := Income | Expense.

Definition TxType_eqb (a b : TxType) : bool :=
  match a, b with
  | Income, Income | Expense, Expense => true
  | _, _ => false
  end.

(** The string a type is stored as: ['Income'] or ['Expense']. *)
Definition TxType_string (t : TxType) : string :=
  match t with Income => "Income" | Expense => "Expense" end.

Section Records.
Context {num : Type}.

(** A stored transaction: [{ id, dateISO, displayDate, type, amount,
    category, note }]. [displayDate] is [toLocaleDateString()] of the same
    date; the locale rendering is not modelled, the field keeps its date. *)
Record Transaction := mkTransaction {
  id : string;
  dateISO : Date;
  displayDate : Date;
  ttype : TxType;
  amount : num;
  category : string;
  note : string
}.

End Records.
Arguments Transaction : clear implicits.

(** The form state [newTransaction]: [{ type, amount, category, note }]; the
    amount is the raw text of the numeric input. *)
Record Draft := mkDraft {
  dtype : TxType;
  damount : string;
  dcategory : string;
  dnote : string
}.

(** [categories]: [{ Income: [...], Expense: [...] }]. *)
Record Registry := mkRegistry { incomeCats : list string; expenseCats : list string }.

Definition reg_get (r : Registry) (t : TxType) : list string :=
  match t with Income => incomeCats r | Expense => expenseCats r end.

(** [{ ...prev, [t]: l }]. *)
Definition reg_set (r : Registry) (t : TxType) (l : list string) : Registry :=
  match t with
  | Income => mkRegistry l (expenseCats r)
  | Expense => mkRegistry (incomeCats r) l
  end.

(** ** Strings *)

(** [Number.prototype.toString] of a non-negative integer: its decimal
    digits. *)
Fixpoint uint_to_string (u : Decimal.uint) : string :=
  match u with
  | Decimal.Nil => EmptyString
  | Decimal.D0 u' => String "0" (uint_to_string u')
  | Decimal.D1 u' => String "1" (uint_to_string u')
  | Decimal.D2 u' => String "2" (uint_to_string u')
  | Decimal.D3 u' => String "3" (uint_to_string u')
  | Decimal.D4 u' => String "4" (uint_to_string u')
  | Decimal.D5 u' => String "5" (uint_to_string u')
  | Decimal.D6 u' => String "6" (uint_to_string u')
  | Decimal.D7 u' => String "7" (uint_to_string u')
  | Decimal.D8 u' => String "8" (uint_to_string u')
  | Decimal.D9 u' => String "9" (uint_to_string u')
  end.

Definition N_toString (n : N) : string := uint_to_string (N.to_uint n).

(** The white space [String.prototype.trim] removes, on ASCII: tab, line
    feed, vertical tab, form feed, carriage return and space. *)
Definition is_js_space (c : ascii) : bool :=
  let n := nat_of_ascii c in
  ((9 <=? n) && (n <=? 13))%nat || (n =? 32)%nat.

Fixpoint drop_spaces (l : list ascii) : list ascii :=
  match l with
  | [] => []
  | c :: l' => if is_js_space c then drop_spaces l' else l
  end.

(** [s.trim()]. *)
Definition trim (s : string) : string :=
  string_of_list_ascii
    (rev (drop_spaces (rev (drop_spaces (list_ascii_of_string s))))).

(** JS truthiness of a string: only [''] is falsy. *)
Definition str_falsy (s : string) : bool := String.eqb s "".

(** ** Application state *)

Section App.
Context {num : Type} `{JSNumber num}.

Local Abbreviation Tx := (Transaction num).

(** The [useState] slots of [App] the handlers read or write. *)
Record AppState := mkState {
  transactions : list Tx;
  categories : Registry;
  modalVisible : bool;
  newTransaction : Draft;
  newCategoryName : string;
  isAddingCategory : bool;
  currentDate : Date;
  deleteModalVisible : bool;
  categoryToDelete : option (string * TxType);
  reassignCategory : string
}.

(** A handler's effect: the next state and the [Alert.alert] message it
    raised, if any. *)
Definition Outcome := (AppState * option string)%type.

Definition emptyDraft : Draft := mkDraft Expense "" "" "".

(** ** Month view *)

(** [isSameMonth(d1, d2)]. *)
Definition isSameMonth (d1 d2 : Date) : bool :=
  (month d1 =? month d2) && (year d1 =? year d2).

(** [getFilteredTransactions()]. *)
Definition getFilteredTransactions (txs : list Tx) (cur : Date) : list Tx :=
  filter (fun t => isSameMonth (dateISO t) cur) txs.

Definition sum_amounts (l : list Tx) : num :=
  fold_left (fun acc curr => js_add acc (amount curr)) l js_zero.

Record Totals := mkTotals { income : num; expense : num; balance : num }.

Definition is_type (ty : TxType) (t : Tx) : bool := TxType_eqb (ttype t) ty.

(** [getTotals()] on the filtered transactions. *)
Definition getTotals (filtered : list Tx) : Totals :=
  let inc := sum_amounts (filter (is_type Income) filtered) in
  let exp := sum_amounts (filter (is_type Expense) filtered) in
  mkTotals inc exp (js_sub inc exp).

(** A group object [{ key, category, type, total, transactions }]. *)
Record Group := mkGroup {
  gkey : string;
  gcategory : string;
  gtype : TxType;
  total : num;
  gtransactions : list Tx
}.

(** The key [`${t.type}-${t.category}`]. *)
Definition group_key (t : Tx) : string :=
  TxType_string (ttype t) ++ "-" ++ category t.

(** [groups[key].transactions.push(t); groups[key].total += t.amount]. *)
Definition group_push (g : Group) (t : Tx) : Group :=
  mkGroup (gkey g) (gcategory g) (gtype g) (js_add (total g) (amount t))
    (gtransactions g ++ [t]).

(** One iteration of the [forEach]. The object [groups] is kept as the list
    of its values in insertion order, which is the order of
    [Object.values] for keys that are not array indices (a key starts with
    [Income-] or [Expense-]). A missing key is created with total [0] and
    no transactions, then updated. *)
Fixpoint group_add (gs : list Group) (t : Tx) : list Group :=
  match gs with
  | [] => [group_push (mkGroup (group_key t) (category t) (ttype t) js_zero []) t]
  | g :: gs' =>
      if String.eqb (gkey g) (group_key t) then group_push g t :: gs'
      else g :: group_add gs' t
  end.

(** The comparator passed to [sort]. *)
Definition group_cmp (a b : Group) : num :=
  if negb (TxType_eqb (gtype a) (gtype b)) then
    (match gtype a with Income => js_minus_one | Expense => js_one end)
  else js_sub (total b) (total a).

(** One implementation of [Array.prototype.sort] with comparator [cmp]: a
    stable insertion sort, where an element goes before the first one it
    compares below 0 with. For a consistent comparator the result of a
    stable sort is unique, so every conforming engine returns this list.
    For a comparator that is not consistent (a NaN group total makes
    [b.total - a.total] NaN) the order is implementation-defined and
    engines differ from this function; what the language allows in every
    case is [sort_spec] below, which the statements about the order use.
    Only the permutation property of this function is used otherwise. *)
Fixpoint sort_insert (cmp : Group -> Group -> num) (x : Group) (l : list Group)
  : list Group :=
  match l with
  | [] => [x]
  | y :: l' =>
      if js_ltb (cmp x y) js_zero then x :: l else y :: sort_insert cmp x l'
  end.

Definition js_sort (cmp : Group -> Group -> num) (l : list Group) : list Group :=
  fold_left (fun acc x => sort_insert cmp x acc) l [].

(** [getGroupedTransactions()] on the filtered transactions. *)
Definition getGroupedTransactions (filtered : list Tx) : list Group :=
  js_sort group_cmp (fold_left group_add filtered []).

(** ** Handlers *)

(** The new transaction of [handleAddTransaction]: the date is the viewed
    month with today's day of month, rolled back to the last day of the
    viewed month when it overflowed; the id is [Date.now().toString()]. *)
Definition transactionDate (cur now : Date) : Date :=
  let td := setDate cur (day now) in
  if negb (month td =? month cur) then setDate td 0 else td.

Definition makeTransaction (d : Draft) (cur now : Date) (now_ms : N) : Tx :=
  let td := transactionDate cur now in
  mkTransaction (N_toString now_ms) td td (dtype d)
    (js_parseFloat (damount d)) (dcategory d) (dnote d).

(** [handleAddTransaction()], run at local date [now] and millisecond clock
    [now_ms]. *)
Definition handleAddTransaction (s : AppState) (now : Date) (now_ms : N)
  : Outcome :=
  let nt := newTransaction s in
  if str_falsy (damount nt) || str_falsy (dcategory nt) then
    (s, Some "Please enter an amount and select a category."%string)
  else
    let t := makeTransaction nt (currentDate s) now now_ms in
    (mkState (t :: transactions s) (categories s) false emptyDraft ""
       false (currentDate s) (deleteModalVisible s) (categoryToDelete s)
       (reassignCategory s), None).

(** [handleAddNewCategory()]. *)
Definition handleAddNewCategory (s : AppState) : Outcome :=
  let nt := newTransaction s in
  let name := trim (newCategoryName s) in
  if str_falsy name then (s, None)
  else if existsb (String.eqb name) (reg_get (categories s) (dtype nt)) then
    (s, Some "Category already exists."%string)
  else
    let cats := categories s in
    (mkState (transactions s)
       (reg_set cats (dtype nt) (reg_get cats (dtype nt) ++ [name]))
       (modalVisible s)
       (mkDraft (dtype nt) (damount nt) name (dnote nt))
       "" false (currentDate s) (deleteModalVisible s)
       (categoryToDelete s) (reassignCategory s), None).

(** The two [action] strings the UI passes: ['delete'] and ['reassign']. *)
Inductive DeleteAction := ActDelete | ActReassign.

(** [t.category === categoryName && t.type === type]. *)
Definition depends_on (name : string) (ty : TxType) (t : Tx) : bool :=
  String.eqb (category t) name && TxType_eqb (ttype t) ty.

(** [{ ...t, category: c }]. *)
Definition with_category (t : Tx) (c : string) : Tx :=
  mkTransaction (id t) (dateISO t) (displayDate t) (ttype t) (amount t) c
    (note t).

(** [executeCategoryDeletion(categoryName, type, action)]. *)
Definition executeCategoryDeletion (s : AppState) (name : string)
    (ty : TxType) (action : DeleteAction) : Outcome :=
  let updated :=
    match action with
    | ActDelete =>
        Some (filter (fun t => negb (depends_on name ty t)) (transactions s))
    | ActReassign =>
        if str_falsy (reassignCategory s) then None
        else Some (map (fun t => if depends_on name ty t
                                 then with_category t (reassignCategory s)
                                 else t) (transactions s))
    end in
  match updated with
  | None => (s, Some "Please select a category to reassign to."%string)
  | Some txs =>
      let cats := categories s in
      let nt := newTransaction s in
      let nt' := if String.eqb (dcategory nt) name
                 then mkDraft (dtype nt) (damount nt) "" (dnote nt) else nt in
      (mkState txs
         (reg_set cats ty (filter (fun c => negb (String.eqb c name))
                             (reg_get cats ty)))
         (modalVisible s) nt' (newCategoryName s) (isAddingCategory s)
         (currentDate s) false None "", None)
  end.

(** The sum of the group totals, in the order of the grouped view. *)
Definition sum_group_totals (gs : list Group) : num :=
  fold_left (fun acc g => js_add acc (total g)) gs js_zero.

End App.

Arguments AppState num : clear implicits.
Arguments Group num : clear implicits.
Arguments Totals num : clear implicits.

(** ** Vocabulary of the statements *)

(** The other transaction type. *)
Definition other_type (t : TxType) : TxType :=
  match t with Income => Expense | Expense => Income end.

(** The group key of a (type, category) pair. *)
Definition key_of (ty : TxType) (c : string) : string :=
  TxType_string ty ++ "-" ++ c.

Section Vocabulary.
Context {num : Type} `{JSNumber num}.

(** The sum of [f] over [l], left to right from [0]. *)
Definition fold_sum {A} (f : A -> num) (l : list A) : num :=
  fold_left (fun acc x => js_add acc (f x)) l js_zero.

(** The (type, category) pair of a group and of a transaction. *)
Definition gpair (g : Group num) : TxType * string := (gtype g, gcategory g).
Definition tpair (t : Transaction num) : TxType * string := (ttype t, category t).

(** Every group's key is the key of its pair. *)
Definition keys_ok (gs : list (Group num)) : Prop :=
  forall g, In g gs -> gkey g = key_of (gtype g) (gcategory g).

(** [x] sorts strictly before [y]: the comparator is below 0. *)
Definition before (x y : Group num) : bool := js_ltb (group_cmp x y) js_zero.

(** [b] does not sort strictly before [a]. *)
Definition not_after (a b : Group num) : Prop := before b a = false.


End Vocabulary.


(** ** What [Array.prototype.sort] may return *)

Section SortSpec.
Context {num : Type} `{JSNumber num} {A : Type}.

(** [a <C b], [a >C b] and [a =C b] of ECMA-262: [comparefn(a, b)] is
    below 0, above 0, or +0 or -0. *)
Definition cmp_lt (cmp : A -> A -> num) (a b : A) : bool := js_ltb (cmp a b) js_zero.
Definition cmp_gt (cmp : A -> A -> num) (a b : A) : bool := js_ltb js_zero (cmp a b).
Definition cmp_eq (cmp : A -> A -> num) (a b : A) : bool :=
  negb (js_is_nan (cmp a b)) && negb (cmp_lt cmp a b) && negb (cmp_gt cmp a b).

(** "[comparefn] is a consistent comparator for the set [S]": for all
    [a], [b], [c] of [S], [comparefn(a, b)] is not NaN, [=C] is reflexive,
    symmetric and transitive, and [<C] and [>C] are transitive. *)
Definition consistentb (cmp : A -> A -> num) (S : list A) : bool :=
  forallb (fun a => forallb (fun b => forallb (fun c =>
    negb (js_is_nan (cmp a b))
    && cmp_eq cmp a a
    && implb (cmp_eq cmp a b) (cmp_eq cmp b a)
    && implb (cmp_eq cmp a b && cmp_eq cmp b c) (cmp_eq cmp a c)
    && implb (cmp_lt cmp a b && cmp_lt cmp b c) (cmp_lt cmp a c)
    && implb (cmp_gt cmp a b && cmp_gt cmp b c) (cmp_gt cmp a c)) S) S) S.

(** The lists [r] that [l.sort(cmp)] may return: a permutation of [l]; when
    [cmp] is consistent for the elements of [l], no element comes after
    one it compares below 0 with ([cmp(old[j], old[k]) < 0] puts [old[j]]
    first). Otherwise the order is implementation-defined. (The language
    also requires stability here; leaving it out only admits more lists.) *)
Definition sort_spec (cmp : A -> A -> num) (l r : list A) : Prop :=
  Permutation l r
  /\ (consistentb cmp l = true -> ForallOrdPairs (fun x y => cmp_lt cmp y x = false) r).

End SortSpec.

(** ** Month navigation, single deletion and deletion initiation *)

(** [MakeDay(y, m, d)] of ECMA-262: the month is first brought into
    0..11 (carrying whole years), then the day is normalised into it. *)
Definition makeDay (y m d : Z) : Date :=
  normalize_day (S (S (Z.to_nat (Z.abs d)))) (y + m / 12) (m mod 12) d.

(** [new Date(y, m, d)] in local time; a year 0..99 means 1900..1999. *)
Definition newDate (y m d : Z) : Date :=
  makeDay (if (0 <=? y) && (y <=? 99) then 1900 + y else y) m d.

(** [date.setMonth(m)]: keeps the year and the day of month of [date]. *)
Definition setMonth (date : Date) (m : Z) : Date :=
  makeDay (year date) m (day date).

(** Strict order of instants of the local calendar, for normalised dates
    at the same time of day. *)
Definition date_ltb (a b : Date) : bool :=
  (year a <? year b)
  || ((year a =? year b)
      && ((month a <? month b) || ((month a =? month b) && (day a <? day b)))).

(** [isFutureMonth(date)], with [now] the current local date. *)
Definition isFutureMonth (date now : Date) : bool :=
  let viewed := newDate (year date) (month date) 1 in
  let current := newDate (year now) (month now) 1 in
  date_ltb current viewed.

Section Navigation.
Context {num : Type} `{JSNumber num}.

Definition set_currentDate (s : AppState num) (d : Date) : AppState num :=
  mkState (transactions s) (categories s) (modalVisible s) (newTransaction s)
    (newCategoryName s) (isAddingCategory s) d (deleteModalVisible s)
    (categoryToDelete s) (reassignCategory s).

Definition set_transactions (s : AppState num) (l : list (Transaction num))
  : AppState num :=
  mkState l (categories s) (modalVisible s) (newTransaction s)
    (newCategoryName s) (isAddingCategory s) (currentDate s)
    (deleteModalVisible s) (categoryToDelete s) (reassignCategory s).

(** The [onChangeText] of the new-category input. *)
Definition setNewCategoryName (s : AppState num) (x : string) : AppState num :=
  mkState (transactions s) (categories s) (modalVisible s) (newTransaction s)
    x (isAddingCategory s) (currentDate s) (deleteModalVisible s)
    (categoryToDelete s) (reassignCategory s).

(** [changeMonth(direction)]. *)
Definition changeMonth (s : AppState num) (direction : Z) : AppState num :=
  set_currentDate s (setMonth (currentDate s) (month (currentDate s) + direction)).

(** [selectMonthYear(monthIndex)] with the picker's year [pickerYear]
    (the picker's visibility is not modelled). *)
Definition selectMonthYear (s : AppState num) (pickerYear monthIndex : Z)
  : AppState num :=
  set_currentDate s (newDate pickerYear monthIndex 1).

(** The ["Delete"] button of [confirmDelete(id)]:
    [prev.filter(t => t.id !== id)]. *)
Definition confirmDelete_onPress (s : AppState num) (i : string) : AppState num :=
  set_transactions s (filter (fun t => negb (String.eqb (id t) i)) (transactions s)).

(** What [handleDeleteCategoryInitiation(categoryName)] leads to: the
    resolver modal opened on the category, or the confirm dialog whose
    ["Delete"] button runs [executeCategoryDeletion(name, type, 'delete')]. *)
Inductive Initiation :=
  | OpenResolver (s : AppState num)
  | ConfirmDeletion (name : string) (ty : TxType).

Definition handleDeleteCategoryInitiation (s : AppState num) (name : string)
  : Initiation :=
  let ty := dtype (newTransaction s) in
  if existsb (depends_on name ty) (transactions s) then
    OpenResolver
      (mkState (transactions s) (categories s) (modalVisible s)
         (newTransaction s) (newCategoryName s) (isAddingCategory s)
         (currentDate s) true (Some (name, ty)) (reassignCategory s))
  else ConfirmDeletion name ty.

End Navigation.

(** ** Expanded groups *)

(** The object [expandedCategories], with boolean values, as the list of
    its entries in insertion order. *)
Definition BoolObj := list (string * bool).

(** [obj[k]]: [undefined] is [None]. *)
Fixpoint obj_get (o : BoolObj) (k : string) : option bool :=
  match o with
  | [] => None
  | (k', v) :: o' => if String.eqb k' k then Some v else obj_get o' k
  end.

(** [{ ...o, [k]: v }]: an existing key keeps its place, a new one goes
    last. *)
Fixpoint obj_set (o : BoolObj) (k : string) (v : bool) : BoolObj :=
  match o with
  | [] => [(k, v)]
  | (k', v') :: o' =>
      if String.eqb k' k then (k, v) :: o' else (k', v') :: obj_set o' k v
  end.

(** Truthiness of a looked-up value. *)
Definition truthy (v : option bool) : bool :=
  match v with Some true => true | _ => false end.

(** [toggleCategory(key)]: [{ ...prev, [key]: !prev[key] }]. *)
Definition toggleCategory (prev : BoolObj) (key : string) : BoolObj :=
  obj_set prev key (negb (truthy (obj_get prev key))).

Section GroupVocabulary.
Context {num : Type} `{JSNumber num}.

(** Transaction [t] has the (type, category) pair of group [g]. *)
Definition same_pair (g : Group num) (t : Transaction num) : bool :=
  TxType_eqb (ttype t) (gtype g) && String.eqb (category t) (gcategory g).

(** Group [g] holds exactly the transactions of [P] with its pair, in
    their order, and its total is their sum. *)
Definition contents (P : list (Transaction num)) (g : Group num) : Prop :=
  gtransactions g = filter (same_pair g) P
  /\ total g = sum_amounts (gtransactions g).

End GroupVocabulary.

(** ** Sample data *)

(** A record as [handleAddTransaction] would store it. *)
Definition sample_tx {num : Type} (i : string) (d : Date) (ty : TxType)
    (a : num) (c : string) : Transaction num :=
  mkTransaction i d d ty a c "".

Definition march_2025 : Date := mkDate 2025 2 15.

(** The ledger of the spec's example, in March 2025, with one more Food
    expense. *)
Definition sample_ledger : list (Transaction Z) :=
  [sample_tx "1741000000002" march_2025 Expense 20 "Food";
   sample_tx "1741000000001" march_2025 Expense 50 "Food";
   sample_tx "1741000000000" march_2025 Income 1000 "Salary"].

Definition default_registry : Registry :=
  mkRegistry ["Salary"; "Gift"; "Freelance"]%string
             ["Food"; "Transport"; "Shopping"; "Bills"]%string.

(** The app viewing [cur], with the form holding [draft], ledger [txs] and
    reassignment target [target]. *)
Definition sample_state {num : Type} (txs : list (Transaction num))
    (draft : Draft) (cur : Date) (target : string) : AppState num :=
  mkState txs default_registry true draft "" false cur true
    (Some ("Food"%string, Expense)) target.

(** Today: 31 January 2025, at millisecond 1738281600000. *)
Definition jan_31_2025 : Date := mkDate 2025 0 31.
Definition now_ms_sample : N := 1738281600000.

(** Transactions whose amounts are the doubles nearest 0.1, 0.1 and 0.4,
    listed in this order
    (what [parseFloat] gives for those inputs), in March 2025. *)
Definition float_ledger : list (Transaction float) :=
  [sample_tx "3" march_2025 Income 0.1%float "Salary";
   sample_tx "2" march_2025 Income 0.1%float "Gift";
   sample_tx "1" march_2025 Income 0.4%float "Salary"].


(** ** General facts *)

Lemma TxType_eqb_spec (a b : TxType) : reflect (a = b) (TxType_eqb a b).
Proof. destruct a, b; constructor; congruence. Qed.

Lemma filter_split_length {A} (p : A -> bool) (l : list A) :
  (List.length (filter (fun x => negb (p x)) l) + List.length (filter p l) = List.length l)%nat.
Proof.
  induction l as [|x l IH]; simpl; [reflexivity|].
  destruct (p x); simpl; lia.
Qed.

Lemma Forall2_map_self {A} (f : A -> A) (l : list A) :
  Forall2 (fun x y => y = f x) l (map f l).
Proof. induction l; simpl; constructor; auto. Qed.

Lemma filter_none {A} (p : A -> bool) (l : list A) :
  filter p l = [] -> filter (fun x => negb (p x)) l = l.
Proof.
  induction l as [|x l IH]; simpl; [reflexivity|].
  destruct (p x); simpl; [discriminate|]. intros E. f_equal. auto.
Qed.

Lemma map_id_none {A} (p : A -> bool) (g : A -> A) (l : list A) :
  filter p l = [] -> map (fun x => if p x then g x else x) l = l.
Proof.
  induction l as [|x l IH]; simpl; [reflexivity|].
  destruct (p x); simpl; [discriminate|]. intros E. f_equal. auto.
Qed.

Lemma not_in_filter_neq (C : string) (l : list string) :
  ~ In C (filter (fun c => negb (String.eqb c C)) l).
Proof.
  intros Hin. apply filter_In in Hin as [_ Hb].
  rewrite String.eqb_refl in Hb. discriminate.
Qed.

Lemma reg_get_set_same (r : Registry) (t : TxType) (l : list string) :
  reg_get (reg_set r t l) t = l.
Proof. destruct t; reflexivity. Qed.

Lemma reg_get_set_other (r : Registry) (t : TxType) (l : list string) :
  reg_get (reg_set r t l) (other_type t) = reg_get r (other_type t).
Proof. destruct t; reflexivity. Qed.

(** ** Month filter *)

(** C5: the month filter returns a sub-sequence of the ledger, made of the
    transactions whose stored date lies in the reference month and year,
    and of no transaction of any other month or year. *)
Theorem getFilteredTransactions_month {num : Type} `{JSNumber num}
    (txs : list (Transaction num)) (cur : Date) :
  incl (getFilteredTransactions txs cur) txs /\
  (forall t, In t (getFilteredTransactions txs cur) <->
     In t txs /\ month (dateISO t) = month cur /\ year (dateISO t) = year cur).
Proof.
  unfold getFilteredTransactions, isSameMonth.
  split.
  - intros t Hin. apply filter_In in Hin. tauto.
  - intros t. rewrite filter_In, andb_true_iff, !Z.eqb_eq. tauto.
Qed.

(** ** Category deletion *)

Section Deletion.
Context {num : Type} `{JSNumber num}.

(** C1: in "delete" mode the ledger keeps exactly the transactions that do
    not have type [T] and category [C] (so its length drops by the number
    [N] of dependents) and [C] leaves the registry list of [T]; in
    "reassign" mode with a chosen target the ledger keeps its length, each
    dependent gets the target as category and every other transaction is
    kept as it is, and [C] leaves the registry list; with no dependent the
    ledger is unchanged in both modes. *)
Theorem executeCategoryDeletion_resolves (s : AppState num) (C : string)
    (T : TxType) :
  let deps := filter (depends_on C T) (transactions s) in
  let s_del := fst (executeCategoryDeletion s C T ActDelete) in
  let s_re := fst (executeCategoryDeletion s C T ActReassign) in
  (transactions s_del = filter (fun t => negb (depends_on C T t)) (transactions s)
   /\ (List.length (transactions s_del) + List.length deps = List.length (transactions s))%nat
   /\ reg_get (categories s_del) T
      = filter (fun c => negb (String.eqb c C)) (reg_get (categories s) T)
   /\ ~ In C (reg_get (categories s_del) T))
  /\ (reassignCategory s <> ""%string ->
      List.length (transactions s_re) = List.length (transactions s)
      /\ Forall2 (fun t t' => t' = if depends_on C T t
                                  then with_category t (reassignCategory s)
                                  else t)
           (transactions s) (transactions s_re)
      /\ reg_get (categories s_re) T
         = filter (fun c => negb (String.eqb c C)) (reg_get (categories s) T)
      /\ ~ In C (reg_get (categories s_re) T))
  /\ (deps = [] -> transactions s_del = transactions s
                   /\ transactions s_re = transactions s).
Proof.
  intros deps s_del s_re. subst deps s_del s_re.
  unfold executeCategoryDeletion; simpl.
  split; [|split].
  - rewrite reg_get_set_same. split; [reflexivity|]. split.
    + apply filter_split_length.
    + split; [reflexivity|]. apply not_in_filter_neq.
  - intros Hne. unfold str_falsy.
    destruct (String.eqb_spec (reassignCategory s) ""); [contradiction|].
    simpl. rewrite reg_get_set_same. split; [apply List.length_map|].
    split; [apply Forall2_map_self|].
    split; [reflexivity|]. apply not_in_filter_neq.
  - intros Hnone. split; [apply filter_none; exact Hnone|].
    destruct (str_falsy (reassignCategory s)); simpl; [reflexivity|].
    apply map_id_none. exact Hnone.
Qed.

(** C9: resolving a deletion in "reassign" mode with no target chosen
    raises a notice and leaves the whole state unchanged. *)
Theorem executeCategoryDeletion_no_target (s : AppState num) (C : string)
    (T : TxType) (Hempty : reassignCategory s = ""%string) :
  executeCategoryDeletion s C T ActReassign
  = (s, Some "Please select a category to reassign to."%string).
Proof.
  unfold executeCategoryDeletion, str_falsy. rewrite Hempty. reflexivity.
Qed.

(** C10: deleting category [C] of type [T], in either mode, keeps every
    transaction of the other type as it was and in its order, whatever its
    category, and keeps the other type's registry list. *)
Theorem executeCategoryDeletion_type_isolated (s : AppState num) (C : string)
    (T : TxType) (action : DeleteAction) :
  let s' := fst (executeCategoryDeletion s C T action) in
  filter (fun t => negb (TxType_eqb (ttype t) T)) (transactions s')
  = filter (fun t => negb (TxType_eqb (ttype t) T)) (transactions s)
  /\ reg_get (categories s') (other_type T) = reg_get (categories s) (other_type T).
Proof.
  intros s'. subst s'.
  assert (Hkeep : forall t : Transaction num, negb (TxType_eqb (ttype t) T) = true ->
                  depends_on C T t = false).
  { intros t Ht. unfold depends_on.
    destruct (TxType_eqb (ttype t) T); [discriminate|]. apply andb_false_r. }
  unfold executeCategoryDeletion.
  destruct action.
  - simpl. rewrite reg_get_set_other. split; [|reflexivity].
    induction (transactions s) as [|t l IH]; simpl; [reflexivity|].
    destruct (negb (TxType_eqb (ttype t) T)) eqn:Ht.
    + rewrite (Hkeep t Ht). simpl. rewrite Ht. f_equal. exact IH.
    + destruct (depends_on C T t); simpl; [exact IH|]. rewrite Ht. exact IH.
  - destruct (str_falsy (reassignCategory s)); simpl; [split; reflexivity|].
    rewrite reg_get_set_other. split; [|reflexivity].
    induction (transactions s) as [|t l IH]; simpl; [reflexivity|].
    destruct (negb (TxType_eqb (ttype t) T)) eqn:Ht.
    + rewrite (Hkeep t Ht), Ht. f_equal. exact IH.
    + destruct (depends_on C T t); simpl.
      * destruct T, (ttype t); try discriminate; exact IH.
      * rewrite Ht. exact IH.
Qed.

End Deletion.

(** ** Category registry *)

Lemma existsb_eqb_In (x : string) (l : list string) :
  existsb (String.eqb x) l = true <-> In x l.
Proof.
  rewrite existsb_exists. split.
  - intros [y [Hy E]]. apply String.eqb_eq in E. subst. exact Hy.
  - intros Hin. exists x. split; [exact Hin|]. apply String.eqb_refl.
Qed.

Section Registry.
Context {num : Type} `{JSNumber num}.

(** C8: adding a category trims the typed name; an empty trimmed name or
    one already in the list of the form's type leaves the registry as it
    was; otherwise the trimmed name is appended to the end of that type's
    list and the other type's list is unchanged. *)
Theorem handleAddNewCategory_spec (s : AppState num) :
  let name := trim (newCategoryName s) in
  let ty := dtype (newTransaction s) in
  let s' := fst (handleAddNewCategory s) in
  ((name = ""%string \/ In name (reg_get (categories s) ty)) ->
     categories s' = categories s)
  /\ (name <> ""%string -> ~ In name (reg_get (categories s) ty) ->
      reg_get (categories s') ty = reg_get (categories s) ty ++ [name]
      /\ reg_get (categories s') (other_type ty)
         = reg_get (categories s) (other_type ty)).
Proof.
  intros name ty s'. subst s'. unfold handleAddNewCategory, str_falsy.
  fold name. fold ty.
  split.
  - intros [E | Hin].
    + rewrite E. reflexivity.
    + destruct (String.eqb_spec name ""); [reflexivity|].
      apply existsb_eqb_In in Hin. rewrite Hin. reflexivity.
  - intros Hne Hnin.
    destruct (String.eqb_spec name ""); [contradiction|].
    destruct (existsb (String.eqb name) (reg_get (categories s) ty)) eqn:E.
    + apply existsb_eqb_In in E. contradiction.
    + simpl. split; [apply reg_get_set_same | apply reg_get_set_other].
Qed.

End Registry.

(** ** Adding a transaction *)

Lemma days_in_month_range (y m : Z) : 28 <= days_in_month y m <= 31.
Proof.
  unfold days_in_month.
  destruct (m =? 1); [destruct (is_leap y); lia|].
  destruct ((m =? 3) || (m =? 5) || (m =? 8) || (m =? 10)); lia.
Qed.

Lemma next_month_spec (y m : Z) :
  0 <= m <= 11 ->
  forall y' m', next_month y m = (y', m') ->
  m' <> m /\ prev_month y' m' = (y, m).
Proof.
  intros Hm y' m'. unfold next_month, prev_month.
  destruct (Z.eqb_spec m 11) as [E|E]; intros Heq; injection Heq as <- <-.
  - split; [lia|]. simpl. f_equal; lia.
  - split; [lia|]. destruct (Z.eqb_spec (m + 1) 0); [lia|]. f_equal; lia.
Qed.

(** The rollover rule: today's day of month applied to the viewed month,
    clamped to the viewed month's last day. *)
Lemma transactionDate_clamp (cur now : Date) :
  valid_date cur -> 1 <= day now <= 31 ->
  transactionDate cur now
  = mkDate (year cur) (month cur)
      (Z.min (day now) (days_in_month (year cur) (month cur))).
Proof.
  destruct cur as [y m d0], now as [ny nm d].
  unfold valid_date; simpl. intros [Hm _] Hd.
  unfold transactionDate, setDate; simpl.
  pose proof (days_in_month_range y m) as Hr.
  destruct (Z.ltb_spec d 1) as [|_]; [lia|].
  destruct (Z.ltb_spec (days_in_month y m) d) as [Hover|Hfit].
  - destruct (next_month y m) as [y' m'] eqn:En.
    destruct (next_month_spec y m Hm y' m' En) as [Hne Hprev].
    pose proof (days_in_month_range y' m') as Hr'.
    destruct (Z.to_nat (Z.abs d)) as [|k] eqn:Ek; [lia|].
    simpl.
    destruct (Z.ltb_spec (d - days_in_month y m) 1); [lia|].
    destruct (Z.ltb_spec (days_in_month y' m') (d - days_in_month y m)); [lia|].
    simpl. destruct (Z.eqb_spec m' m); [contradiction|]. simpl.
    unfold setDate; simpl. rewrite Hprev.
    pose proof (days_in_month_range y m).
    destruct (Z.ltb_spec (0 + days_in_month y m) 1); [lia|].
    destruct (Z.ltb_spec (days_in_month y m) (0 + days_in_month y m)); [lia|].
    destruct (Z.ltb_spec (days_in_month y m) 1); [lia|].
    destruct (Z.ltb_spec (days_in_month y m) (days_in_month y m)); [lia|].
    f_equal. lia.
  - simpl. rewrite Z.eqb_refl. simpl. f_equal. lia.
Qed.

Lemma uint_to_string_inj (u v : Decimal.uint) :
  uint_to_string u = uint_to_string v -> u = v.
Proof.
  revert v.
  induction u; destruct v; simpl; intros E; try discriminate;
    try reflexivity; injection E as E; f_equal; auto.
Qed.

Lemma N_toString_inj (a b : N) : N_toString a = N_toString b -> a = b.
Proof.
  unfold N_toString. intros E. apply uint_to_string_inj in E.
  rewrite <- (DecimalN.Unsigned.of_to a), <- (DecimalN.Unsigned.of_to b), E.
  reflexivity.
Qed.

Section Add.
Context {num : Type} `{JSNumber num}.

Lemma handleAddTransaction_success (s : AppState num) (now : Date) (now_ms : N) :
  damount (newTransaction s) <> ""%string ->
  dcategory (newTransaction s) <> ""%string ->
  snd (handleAddTransaction s now now_ms) = None
  /\ transactions (fst (handleAddTransaction s now now_ms))
     = makeTransaction (newTransaction s) (currentDate s) now now_ms
       :: transactions s.
Proof.
  unfold handleAddTransaction, str_falsy. intros Ha Hc.
  destruct (String.eqb_spec (damount (newTransaction s)) ""); [contradiction|].
  destruct (String.eqb_spec (dcategory (newTransaction s)) ""); [contradiction|].
  split; reflexivity.
Qed.

(** C2 (as amended): adding a transaction fails with a notice and no state
    change exactly when the amount text or the category is empty; any other
    amount text, whether or not [parseFloat] can read it, creates the
    transaction. *)
Theorem handleAddTransaction_validation (s : AppState num) (now : Date)
    (now_ms : N) :
  ((damount (newTransaction s) = ""%string \/ dcategory (newTransaction s) = ""%string) ->
   handleAddTransaction s now now_ms
   = (s, Some "Please enter an amount and select a category."%string))
  /\ (damount (newTransaction s) <> ""%string ->
      dcategory (newTransaction s) <> ""%string ->
      snd (handleAddTransaction s now now_ms) = None
      /\ transactions (fst (handleAddTransaction s now now_ms))
         = makeTransaction (newTransaction s) (currentDate s) now now_ms
           :: transactions s).
Proof.
  split.
  - unfold handleAddTransaction, str_falsy.
    intros [E|E]; rewrite E; [reflexivity|]. rewrite orb_true_r. reflexivity.
  - apply handleAddTransaction_success.
Qed.

(** C3: when an add succeeds, the new transaction (at the head of the
    ledger) is dated in the viewed month and year, on today's day of month
    or, when the viewed month is shorter, on its last day. *)
Theorem handleAddTransaction_date (s : AppState num) (now : Date) (now_ms : N)
    (Hcur : valid_date (currentDate s)) (Hnow : valid_date now)
    (Hok : snd (handleAddTransaction s now now_ms) = None) :
  exists t,
    hd_error (transactions (fst (handleAddTransaction s now now_ms))) = Some t
    /\ dateISO t = mkDate (year (currentDate s)) (month (currentDate s))
                    (Z.min (day now)
                       (days_in_month (year (currentDate s)) (month (currentDate s))))
    /\ month (dateISO t) = month (currentDate s)
    /\ year (dateISO t) = year (currentDate s)
    /\ 1 <= day (dateISO t)
         <= days_in_month (year (currentDate s)) (month (currentDate s)).
Proof.
  revert Hok. unfold handleAddTransaction.
  destruct (str_falsy (damount (newTransaction s)) ||
            str_falsy (dcategory (newTransaction s))); simpl;
    [discriminate|intros _].
  eexists. split; [reflexivity|].
  unfold makeTransaction; simpl.
  assert (Hd : 1 <= day now <= 31).
  { destruct Hnow as [_ Hd].
    pose proof (days_in_month_range (year now) (month now)). lia. }
  rewrite (transactionDate_clamp (currentDate s) now Hcur Hd); simpl.
  pose proof (days_in_month_range (year (currentDate s)) (month (currentDate s))).
  repeat split; lia.
Qed.

(** C4 (as amended): a valid add prepends the new transaction to the
    ledger, so the length grows by one; its id is the decimal string of the
    millisecond clock, distinct from every prior id when every prior id
    is the clock string of a strictly earlier instant. *)
Theorem handleAddTransaction_prepends (s : AppState num) (now : Date)
    (now_ms : N)
    (Ha : damount (newTransaction s) <> ""%string)
    (Hc : dcategory (newTransaction s) <> ""%string) :
  let s' := fst (handleAddTransaction s now now_ms) in
  let t := makeTransaction (newTransaction s) (currentDate s) now now_ms in
  transactions s' = t :: transactions s
  /\ List.length (transactions s') = S (List.length (transactions s))
  /\ id t = N_toString now_ms
  /\ ((forall u, In u (transactions s) ->
         exists n, id u = N_toString n /\ (n < now_ms)%N) ->
      forall u, In u (transactions s) -> id u <> id t).
Proof.
  intros s' t. subst s' t.
  destruct (handleAddTransaction_success s now now_ms Ha Hc)
    as [_ Htx].
  rewrite Htx. split; [reflexivity|]. split; [reflexivity|].
  split; [reflexivity|].
  intros Hprior u Hu E. destruct (Hprior u Hu) as [n [En Hlt]].
  simpl in E. rewrite En in E. apply N_toString_inj in E. lia.
Qed.

End Add.

(** ** Grouped view: permutation and key facts *)

Lemma sort_insert_perm {num : Type} (cmp : Group num -> Group num -> num)
    `{JSNumber num} (x : Group num) (l : list (Group num)) :
  Permutation (sort_insert cmp x l) (x :: l).
Proof.
  induction l as [|y l IH]; simpl; [reflexivity|].
  destruct (js_ltb (cmp x y) js_zero); [reflexivity|].
  rewrite IH. apply perm_swap.
Qed.

Lemma js_sort_perm {num : Type} `{JSNumber num}
    (cmp : Group num -> Group num -> num) (l acc : list (Group num)) :
  Permutation (fold_left (fun acc x => sort_insert cmp x acc) l acc) (l ++ acc).
Proof.
  revert acc. induction l as [|x l IH]; intros acc; simpl; [reflexivity|].
  rewrite IH, sort_insert_perm. symmetry. apply Permutation_middle.
Qed.

Lemma key_of_inj (t1 t2 : TxType) (c1 c2 : string) :
  key_of t1 c1 = key_of t2 c2 -> t1 = t2 /\ c1 = c2.
Proof.
  destruct t1, t2; simpl; intros E; try discriminate;
    repeat (injection E as E); split; congruence.
Qed.

Section Sums.
Context {num : Type} `{JSNumber num}.
Hypothesis add_assoc : forall a b c, js_add a (js_add b c) = js_add (js_add a b) c.
Hypothesis add_comm : forall a b, js_add a b = js_add b a.
Hypothesis add_zero_l : forall a, js_add js_zero a = a.

Lemma fold_sum_shift {A} (f : A -> num) (l : list A) (a : num) :
  fold_left (fun acc x => js_add acc (f x)) l a = js_add a (fold_sum f l).
Proof.
  unfold fold_sum. revert a. induction l as [|x l IH]; intros a; simpl.
  - rewrite add_comm, add_zero_l. reflexivity.
  - rewrite IH, (IH (js_add js_zero (f x))), add_zero_l, add_assoc.
    reflexivity.
Qed.

Lemma fold_sum_cons {A} (f : A -> num) (x : A) (l : list A) :
  fold_sum f (x :: l) = js_add (f x) (fold_sum f l).
Proof.
  unfold fold_sum at 1. simpl. rewrite fold_sum_shift, add_zero_l. reflexivity.
Qed.

Lemma fold_sum_perm {A} (f : A -> num) (l1 l2 : list A) :
  Permutation l1 l2 -> fold_sum f l1 = fold_sum f l2.
Proof.
  induction 1 as [| x l1 l2 _ IH | x y l | l1 l2 l3 _ IH1 _ IH2].
  - reflexivity.
  - rewrite !fold_sum_cons, IH. reflexivity.
  - rewrite !fold_sum_cons, !add_assoc, (add_comm (f y)). reflexivity.
  - congruence.
Qed.

Lemma group_add_sum (gs : list (Group num)) (t : Transaction num) :
  fold_sum total (group_add gs t) = js_add (fold_sum total gs) (amount t).
Proof.
  induction gs as [|g gs IH]; simpl.
  - rewrite fold_sum_cons. unfold fold_sum; simpl.
    rewrite !add_zero_l, add_comm, add_zero_l. reflexivity.
  - destruct (String.eqb (gkey g) (group_key t)).
    + rewrite !fold_sum_cons. unfold group_push; simpl.
      rewrite <- !add_assoc, (add_comm (amount t)). reflexivity.
    + rewrite !fold_sum_cons, IH, add_assoc. reflexivity.
Qed.

Lemma group_fold_sum (l : list (Transaction num)) (gs : list (Group num)) :
  fold_sum total (fold_left group_add l gs)
  = js_add (fold_sum total gs) (fold_sum amount l).
Proof.
  revert gs. induction l as [|t l IH]; intros gs; simpl.
  - unfold fold_sum at 3; simpl. rewrite add_comm, add_zero_l. reflexivity.
  - rewrite IH, group_add_sum, fold_sum_cons, <- add_assoc. reflexivity.
Qed.

Lemma fold_sum_by_type (l : list (Transaction num)) :
  fold_sum amount l
  = js_add (fold_sum amount (filter (is_type Income) l))
           (fold_sum amount (filter (is_type Expense) l)).
Proof.
  induction l as [|t l IH].
  - unfold fold_sum; simpl. rewrite add_zero_l. reflexivity.
  - unfold is_type at 1 2. simpl. destruct (ttype t); simpl;
      rewrite !fold_sum_cons, IH; fold (is_type (num:=num) Income);
      fold (is_type (num:=num) Expense).
    + rewrite add_assoc. reflexivity.
    + rewrite !add_assoc, (add_comm (amount t)). reflexivity.
Qed.

(** C6 (as amended): when amount addition is exact (associative and
    commutative with 0 as identity, as on integer amounts), the group totals
    of the grouped view sum to the income total plus the expense total. *)
Theorem getGroupedTransactions_sum (filtered : list (Transaction num)) :
  sum_group_totals (getGroupedTransactions filtered)
  = js_add (income (getTotals filtered)) (expense (getTotals filtered)).
Proof.
  unfold sum_group_totals, getGroupedTransactions, js_sort, getTotals; simpl.
  fold (fold_sum (total (num:=num))
          (fold_left (fun acc x => sort_insert group_cmp x acc)
             (fold_left group_add filtered []) [])).
  rewrite (fold_sum_perm _ _ _ (js_sort_perm _ _ _)), app_nil_r.
  rewrite group_fold_sum. unfold fold_sum at 1; simpl.
  rewrite add_zero_l. apply fold_sum_by_type.
Qed.

End Sums.

(** ** Grouped view: groups and their order *)

Section Groups.
Context {num : Type} `{JSNumber num}.

Lemma group_add_keys_ok (gs : list (Group num)) (t : Transaction num) :
  keys_ok gs -> keys_ok (group_add gs t).
Proof.
  unfold keys_ok. induction gs as [|g gs IH]; simpl; intros Hk g' Hin.
  - destruct Hin as [<-|[]]. reflexivity.
  - destruct (String.eqb (gkey g) (group_key t)); simpl in Hin.
    + destruct Hin as [<-|Hin]; [apply (Hk g); auto|apply Hk; auto].
    + destruct Hin as [<-|Hin]; [apply Hk; auto|].
      apply IH; auto.
Qed.

Lemma group_add_pairs (gs : list (Group num)) (t : Transaction num) :
  keys_ok gs ->
  forall p, In p (map gpair (group_add gs t)) <-> In p (map gpair gs) \/ p = tpair t.
Proof.
  unfold keys_ok. induction gs as [|g gs IH]; simpl; intros Hk p.
  - unfold gpair, tpair; simpl. split; [intros [E|[]]; auto|].
    intros [[]|E]; auto.
  - destruct (String.eqb_spec (gkey g) (group_key t)) as [E|E]; simpl.
    + assert (Hp : gpair g = tpair t).
      { rewrite (Hk g (or_introl eq_refl)) in E. unfold group_key in E.
        apply key_of_inj in E as [E1 E2]. unfold gpair, tpair. congruence. }
      change (gpair (group_push g t)) with (gpair g).
      split; [tauto|]. intros [H1|H1]; [exact H1|left; congruence].
    + rewrite IH by auto. tauto.
Qed.

Lemma group_add_nodup (gs : list (Group num)) (t : Transaction num) :
  keys_ok gs -> NoDup (map gpair gs) -> NoDup (map gpair (group_add gs t)).
Proof.
  induction gs as [|g gs IH]; simpl; intros Hk Hnd.
  - constructor; [intros []|constructor].
  - inversion Hnd as [|? ? Hnotin Hnd']; subst.
    destruct (String.eqb_spec (gkey g) (group_key t)) as [E|E]; simpl.
    + constructor; assumption.
    + assert (Hk' : keys_ok gs) by (intros g' Hg'; apply Hk; simpl; auto).
      constructor; [|apply IH; auto].
      rewrite group_add_pairs by exact Hk'. intros [Hin|Hp]; [contradiction|].
      apply E. rewrite (Hk g (or_introl eq_refl)). unfold group_key.
      unfold gpair, tpair in Hp. injection Hp as -> ->. reflexivity.
Qed.

Lemma group_fold_facts (l : list (Transaction num)) (gs : list (Group num)) :
  keys_ok gs -> NoDup (map gpair gs) ->
  keys_ok (fold_left group_add l gs)
  /\ NoDup (map gpair (fold_left group_add l gs))
  /\ (forall p, In p (map gpair (fold_left group_add l gs))
               <-> In p (map gpair gs) \/ exists t, In t l /\ p = tpair t).
Proof.
  revert gs. induction l as [|t l IH]; intros gs Hk Hnd; simpl.
  - split; [exact Hk|]. split; [exact Hnd|].
    intros p. split; [tauto|]. intros [H1|[t [[] _]]]. exact H1.
  - destruct (IH (group_add gs t) (group_add_keys_ok gs t Hk)
                 (group_add_nodup gs t Hk Hnd)) as [Hk' [Hnd' Hp']].
    split; [exact Hk'|]. split; [exact Hnd'|].
    intros p. rewrite Hp', group_add_pairs by exact Hk. split.
    + intros [[H1|H1]|[u [Hu Hpu]]]; [tauto| |].
      * right. exists t. auto.
      * right. exists u. auto.
    + intros [H1|[u [[<-|Hu] Hpu]]]; [tauto|tauto|].
      right. exists u. auto.
Qed.

Section Order.
Hypothesis sub_neg : forall a b, js_ltb (js_sub b a) js_zero = js_ltb b a.
Hypothesis minus_one_neg : js_ltb js_minus_one js_zero = true.
Hypothesis one_nonneg : js_ltb js_one js_zero = false.
Hypothesis ltb_asym : forall a b, js_ltb a b = true -> js_ltb b a = false.
Hypothesis ltb_trans :
  forall a b c, js_ltb a b = true -> js_ltb b c = true -> js_ltb a c = true.

Lemma before_eq (x y : Group num) :
  before x y = if TxType_eqb (gtype x) (gtype y) then js_ltb (total y) (total x)
               else match gtype x with Income => true | Expense => false end.
Proof.
  unfold before, group_cmp.
  destruct (gtype x), (gtype y); simpl; auto.
Qed.

Lemma before_asym (x y : Group num) : before x y = true -> before y x = false.
Proof.
  rewrite !before_eq.
  destruct (gtype x), (gtype y); simpl; auto; discriminate.
Qed.

Lemma before_trans (x y z : Group num) :
  before x y = true -> before y z = true -> before x z = true.
Proof.
  rewrite !before_eq.
  destruct (gtype x), (gtype y), (gtype z); simpl; eauto; discriminate.
Qed.

Lemma sort_insert_sorted (x : Group num) (l : list (Group num)) :
  ForallOrdPairs not_after l -> ForallOrdPairs not_after (sort_insert group_cmp x l).
Proof.
  induction l as [|y l IH]; simpl; intros Hs.
  - constructor; constructor.
  - inversion Hs as [|? ? Hy Hl]; subst.
    fold (before x y).
    destruct (before x y) eqn:Exy.
    + constructor; [|exact Hs]. constructor.
      * unfold not_after. apply before_asym. exact Exy.
      * rewrite Forall_forall in Hy |- *. intros z Hz. unfold not_after.
        destruct (before z x) eqn:Ezx; [|reflexivity].
        pose proof (Hy z Hz) as Hzy. unfold not_after in Hzy.
        rewrite (before_trans z x y Ezx Exy) in Hzy. discriminate.
    + constructor; [|apply IH; exact Hl].
      rewrite Forall_forall in Hy |- *. intros z Hz.
      apply (Permutation_in _ (sort_insert_perm group_cmp x l)) in Hz.
      destruct Hz as [<-|Hz]; [exact Exy|apply Hy; exact Hz].
Qed.

Lemma js_sort_sorted (l acc : list (Group num)) :
  ForallOrdPairs not_after acc ->
  ForallOrdPairs not_after (fold_left (fun acc x => sort_insert group_cmp x acc) l acc).
Proof.
  revert acc. induction l as [|x l IH]; intros acc Hs; simpl; [exact Hs|].
  apply IH, sort_insert_sorted, Hs.
Qed.



(** The model's grouped view is one of the lists [sort] may return, when
    [b - a < 0] exactly when [b < a] and [<] is a strict order. *)
Lemma getGroupedTransactions_conforming (filtered : list (Transaction num)) :
  sort_spec group_cmp (fold_left group_add filtered [])
    (getGroupedTransactions filtered).
Proof.
  unfold getGroupedTransactions, js_sort. split.
  - pose proof (js_sort_perm group_cmp (fold_left group_add filtered []) []) as Hp.
    rewrite app_nil_r in Hp. symmetry. exact Hp.
  - intros _. apply js_sort_sorted. constructor.
Qed.


End Order.
End Groups.

(** ** Concrete runs *)

Example trim_example :
  trim ("  Coffee " ++ String (ascii_of_nat 9) "")%string = "Coffee"%string.
Proof. reflexivity. Qed.

Example spec_example_groups :
  map (fun g => (gkey g, total g))
    (getGroupedTransactions (getFilteredTransactions sample_ledger march_2025))
  = [("Income-Salary"%string, 1000); ("Expense-Food"%string, 70)].
Proof. reflexivity. Qed.

(** C3: with the viewed month February 2025 and today the 31st, the new
    transaction is dated 28 February 2025. *)
Lemma handleAddTransaction_date_witness :
  let s := sample_state (num:=Z) sample_ledger (mkDraft Expense "12" "Food" "")
             (mkDate 2025 1 10) "" in
  valid_date (currentDate s) /\ valid_date jan_31_2025
  /\ snd (handleAddTransaction s jan_31_2025 now_ms_sample) = None
  /\ exists t,
    hd_error (transactions (fst (handleAddTransaction s jan_31_2025 now_ms_sample)))
      = Some t
    /\ dateISO t = mkDate (year (currentDate s)) (month (currentDate s))
                    (Z.min (day jan_31_2025)
                       (days_in_month (year (currentDate s)) (month (currentDate s))))
    /\ month (dateISO t) = month (currentDate s)
    /\ year (dateISO t) = year (currentDate s)
    /\ 1 <= day (dateISO t)
         <= days_in_month (year (currentDate s)) (month (currentDate s)).
Proof.
  intros s.
  assert (V1 : valid_date (currentDate s)) by (unfold valid_date, days_in_month, is_leap; simpl; lia).
  assert (V2 : valid_date jan_31_2025) by (unfold valid_date, days_in_month, is_leap; simpl; lia).
  assert (V3 : snd (handleAddTransaction s jan_31_2025 now_ms_sample) = None)
    by reflexivity.
  split; [exact V1|]. split; [exact V2|]. split; [exact V3|].
  exact (handleAddTransaction_date s jan_31_2025 now_ms_sample V1 V2 V3).
Defined.

(** C4: a valid add on the sample ledger. *)
Lemma handleAddTransaction_prepends_witness :
  let s := sample_state (num:=Z) sample_ledger (mkDraft Expense "12" "Food" "")
             march_2025 "" in
  let s' := fst (handleAddTransaction s jan_31_2025 now_ms_sample) in
  let t := makeTransaction (newTransaction s) (currentDate s) jan_31_2025
             now_ms_sample in
  transactions s' = t :: transactions s
  /\ List.length (transactions s') = S (List.length (transactions s))
  /\ id t = N_toString now_ms_sample
  /\ ((forall u, In u (transactions s) ->
         exists n, id u = N_toString n /\ (n < now_ms_sample)%N) ->
      forall u, In u (transactions s) -> id u <> id t).
Proof.
  intros s s' t.
  apply (handleAddTransaction_prepends s jan_31_2025 now_ms_sample);
    simpl; discriminate.
Defined.

(** C2: the amount text "abc" passes the check; the stored amount is NaN. *)
Lemma handleAddTransaction_unparseable_amount :
  let s := sample_state (num:=float) [] (mkDraft Expense "abc" "Food" "")
             march_2025 "" in
  let r := handleAddTransaction s jan_31_2025 now_ms_sample in
  snd r = None
  /\ List.length (transactions (fst r)) = S (List.length (transactions s))
  /\ exists t, hd_error (transactions (fst r)) = Some t
               /\ PrimFloat.is_nan (amount t) = true.
Proof.
  intros s r. split; [reflexivity|]. split; [reflexivity|].
  eexists. split; [reflexivity|]. vm_compute. reflexivity.
Qed.

(** C4: a prior record created at the same millisecond (or before a clock
    adjustment) carries the id the new record receives. *)
Lemma handleAddTransaction_duplicate_id :
  let prior := sample_tx (num:=float) (N_toString now_ms_sample) march_2025
                 Expense 5%float "Food" in
  let s := sample_state [prior] (mkDraft Expense "12" "Food" "")
             march_2025 "" in
  exists t, hd_error (transactions (fst (handleAddTransaction s jan_31_2025
                                           now_ms_sample))) = Some t
            /\ In prior (transactions s) /\ id prior = id t.
Proof.
  intros prior s. eexists. split; [reflexivity|]. split; [left; reflexivity|].
  reflexivity.
Qed.

(** C6: on doubles the group totals (0.5 for Salary, 0.1 for Gift) sum to
    0.6, while income plus expense is 0.6000000000000001. *)
Lemma group_totals_float_rounding :
  let f := getFilteredTransactions float_ledger march_2025 in
  sum_group_totals (getGroupedTransactions f)
  <> js_add (income (getTotals f)) (expense (getTotals f)).
Proof.
  intros f E.
  assert (Hb : PrimFloat.eqb (sum_group_totals (getGroupedTransactions f))
                 (js_add (income (getTotals f)) (expense (getTotals f))) = true).
  { rewrite E. vm_compute. reflexivity. }
  vm_compute in Hb. discriminate.
Qed.

(** C6: on integer amounts the sums agree for the sample ledger. *)
Lemma getGroupedTransactions_sum_witness :
  let f := getFilteredTransactions sample_ledger march_2025 in
  sum_group_totals (getGroupedTransactions f)
  = js_add (income (getTotals f)) (expense (getTotals f)).
Proof.
  intros f.
  apply getGroupedTransactions_sum; intros; simpl; lia.
Defined.



(** C9: the form has no target selected. *)
Lemma executeCategoryDeletion_no_target_witness :
  let s := sample_state (num:=Z) sample_ledger emptyDraft march_2025 "" in
  reassignCategory s = ""%string
  /\ executeCategoryDeletion s "Food" Expense ActReassign
     = (s, Some "Please select a category to reassign to."%string).
Proof.
  intros s. split; [reflexivity|].
  apply executeCategoryDeletion_no_target. reflexivity.
Defined.

(** The spec's "reassign" example: the two Food expenses move to Bills and
    Food leaves the Expense list. *)
Example reassign_example :
  let s := sample_state (num:=Z) sample_ledger emptyDraft march_2025 "Bills" in
  let s' := fst (executeCategoryDeletion s "Food" Expense ActReassign) in
  List.length (filter (depends_on "Food" Expense) (transactions s')) = 0%nat
  /\ List.length (filter (depends_on "Bills" Expense) (transactions s')) = 2%nat
  /\ reg_get (categories s') Expense = ["Transport"; "Shopping"; "Bills"]%string.
Proof. repeat split; reflexivity. Qed.

(** ** Month navigation *)

(** A day 1..31 in a month 0..11 either fits, or overflows into the next
    month by at most 3 days. *)
Lemma normalize_day_small (fuel : nat) (y m d : Z) :
  (2 <= fuel)%nat -> 0 <= m <= 11 -> 1 <= d <= 31 ->
  normalize_day fuel y m d
  = if d <=? days_in_month y m then mkDate y m d
    else mkDate (fst (next_month y m)) (snd (next_month y m))
           (d - days_in_month y m).
Proof.
  intros Hf Hm Hd.
  destruct fuel as [|[|fuel]]; [lia|lia|].
  pose proof (days_in_month_range y m).
  simpl.
  destruct (Z.ltb_spec d 1); [lia|].
  destruct (Z.ltb_spec (days_in_month y m) d); destruct (Z.leb_spec d (days_in_month y m)); try lia.
  - destruct (next_month y m) as [y' m'] eqn:En. simpl.
    pose proof (days_in_month_range y' m').
    destruct (Z.ltb_spec (d - days_in_month y m) 1); [lia|].
    destruct (Z.ltb_spec (days_in_month y' m') (d - days_in_month y m)); [lia|].
    reflexivity.
  - reflexivity.
Qed.

Lemma makeDay_small (y m d : Z) :
  1 <= d <= 31 ->
  makeDay y m d
  = let ty := y + m / 12 in let tm := m mod 12 in
    if d <=? days_in_month ty tm then mkDate ty tm d
    else mkDate (fst (next_month ty tm)) (snd (next_month ty tm))
           (d - days_in_month ty tm).
Proof.
  intros Hd. unfold makeDay. apply normalize_day_small; [lia| |exact Hd].
  pose proof (Z.mod_pos_bound m 12). lia.
Qed.

Section NavigationFacts.
Context {num : Type} `{JSNumber num}.

(** [changeMonth] moves the viewed date by [direction] months (carrying
    years) keeping the day of month when the target month has that day;
    otherwise the date overflows into the month after the target, by the
    excess days (e.g. from 31 January forward to 3 March). Nothing but the
    viewed date changes. *)
Theorem changeMonth_spec (s : AppState num) (direction : Z)
    (Hcur : valid_date (currentDate s)) :
  let y := year (currentDate s) in
  let d := day (currentDate s) in
  let ty := y + (month (currentDate s) + direction) / 12 in
  let tm := (month (currentDate s) + direction) mod 12 in
  currentDate (changeMonth s direction)
  = (if d <=? days_in_month ty tm then mkDate ty tm d
     else mkDate (fst (next_month ty tm)) (snd (next_month ty tm))
            (d - days_in_month ty tm))
  /\ changeMonth s direction = set_currentDate s (currentDate (changeMonth s direction)).
Proof.
  intros y d ty tm. split; [|reflexivity].
  unfold changeMonth, set_currentDate, setMonth; simpl.
  destruct Hcur as [_ Hd].
  pose proof (days_in_month_range (year (currentDate s)) (month (currentDate s))).
  apply makeDay_small. lia.
Qed.

Lemma makeDay_next (y m d : Z) :
  0 <= m <= 11 -> 1 <= d <= 28 ->
  makeDay y (m + 1) d = mkDate (fst (next_month y m)) (snd (next_month y m)) d.
Proof.
  intros Hm Hd. rewrite makeDay_small by lia. unfold next_month.
  destruct (Z.eqb_spec m 11) as [->|Hne]; simpl.
  - change (12 / 12) with 1. change (12 mod 12) with 0.
    pose proof (days_in_month_range (y + 1) 0).
    destruct (Z.leb_spec d (days_in_month (y + 1) 0)); [reflexivity|lia].
  - rewrite Z.div_small, Z.mod_small by lia. rewrite Z.add_0_r.
    pose proof (days_in_month_range y (m + 1)).
    destruct (Z.leb_spec d (days_in_month y (m + 1))); [reflexivity|lia].
Qed.

Lemma makeDay_prev (y m d : Z) :
  0 <= m <= 11 -> 1 <= d <= 28 ->
  makeDay y (m + -1) d = mkDate (fst (prev_month y m)) (snd (prev_month y m)) d.
Proof.
  intros Hm Hd. rewrite makeDay_small by lia. unfold prev_month.
  destruct (Z.eqb_spec m 0) as [->|Hne]; simpl.
  - change (-1 / 12) with (-1). change (-1 mod 12) with 11.
    pose proof (days_in_month_range (y + -1) 11).
    destruct (Z.leb_spec d (days_in_month (y + -1) 11)); [f_equal; lia|lia].
  - rewrite Z.div_small, Z.mod_small by lia. rewrite Z.add_0_r.
    pose proof (days_in_month_range y (m + -1)).
    destruct (Z.leb_spec d (days_in_month y (m + -1))); [f_equal; lia|lia].
Qed.

Lemma prev_month_spec (y m : Z) :
  0 <= m <= 11 ->
  0 <= snd (prev_month y m) <= 11
  /\ next_month (fst (prev_month y m)) (snd (prev_month y m)) = (y, m).
Proof.
  intros Hm. unfold prev_month, next_month.
  destruct (Z.eqb_spec m 0) as [->|Hne]; simpl.
  - split; [lia|]. f_equal. lia.
  - split; [lia|]. destruct (Z.eqb_spec (m - 1) 11); [lia|]. f_equal. lia.
Qed.

Lemma next_month_bound (y m : Z) : 0 <= m <= 11 -> 0 <= snd (next_month y m) <= 11.
Proof. intros Hm. unfold next_month. destruct (Z.eqb_spec m 11); simpl; lia. Qed.

(** On a day of month up to 28, the "next month" and "previous month"
    arrows undo each other. *)
Theorem changeMonth_round_trip (s : AppState num)
    (Hcur : valid_date (currentDate s)) (Hd : day (currentDate s) <= 28) :
  currentDate (changeMonth (changeMonth s 1) (-1)) = currentDate s
  /\ currentDate (changeMonth (changeMonth s (-1)) 1) = currentDate s.
Proof.
  destruct s as [txs cats mv nt ncn iac [y m d] dmv ctd rc].
  unfold valid_date in Hcur; simpl in *. destruct Hcur as [Hm Hd1].
  unfold changeMonth, set_currentDate, setMonth; simpl.
  split.
  - rewrite makeDay_next by lia. simpl.
    rewrite makeDay_prev by (try apply next_month_bound; lia).
    destruct (next_month y m) as [y' m'] eqn:En.
    destruct (next_month_spec y m Hm y' m' En) as [_ Hp]. simpl.
    rewrite Hp. reflexivity.
  - rewrite makeDay_prev by lia. simpl.
    destruct (prev_month_spec y m Hm) as [Hb Hn].
    rewrite makeDay_next by lia. rewrite Hn. reflexivity.
Qed.

(** The month picker sets the viewed date to the first of the chosen
    month of the picker's year; a picker year 0..99 is read as 1900..1999,
    as [new Date(y, m, 1)] does. *)
Theorem selectMonthYear_spec (s : AppState num) (pickerYear monthIndex : Z)
    (Hm : 0 <= monthIndex <= 11) :
  currentDate (selectMonthYear s pickerYear monthIndex)
  = mkDate (if (0 <=? pickerYear) && (pickerYear <=? 99) then 1900 + pickerYear
            else pickerYear) monthIndex 1
  /\ valid_date (currentDate (selectMonthYear s pickerYear monthIndex)).
Proof.
  unfold selectMonthYear, set_currentDate, newDate. cbn [currentDate].
  generalize (if (0 <=? pickerYear) && (pickerYear <=? 99) then 1900 + pickerYear
              else pickerYear) as Y. intros Y.
  rewrite makeDay_small by lia. cbv zeta.
  rewrite Z.div_small, Z.mod_small by lia. rewrite Z.add_0_r.
  pose proof (days_in_month_range Y monthIndex).
  destruct (Z.leb_spec 1 (days_in_month Y monthIndex)); [|lia].
  split; [reflexivity|]. unfold valid_date; simpl. lia.
Qed.

End NavigationFacts.

Lemma makeDay_valid (y m d : Z) : 1 <= d <= 31 -> valid_date (makeDay y m d).
Proof.
  intros Hd. rewrite makeDay_small by exact Hd. cbv zeta.
  pose proof (Z.mod_pos_bound m 12 ltac:(lia)) as Hb.
  set (ty := y + m / 12). set (tm := m mod 12) in *. clearbody ty tm.
  pose proof (days_in_month_range ty tm).
  destruct (Z.leb_spec d (days_in_month ty tm)).
  - unfold valid_date; simpl. lia.
  - pose proof (next_month_bound ty tm ltac:(lia)).
    pose proof (days_in_month_range (fst (next_month ty tm)) (snd (next_month ty tm))).
    unfold valid_date; simpl. lia.
Qed.

Lemma filter_all_false {A} (p : A -> bool) (l : list A) :
  (forall x, In x l -> p x = false) -> filter p l = [].
Proof.
  induction l as [|x l IH]; simpl; intros Hf; [reflexivity|].
  rewrite (Hf x (or_introl eq_refl)). apply IH. intros y Hy. apply Hf. auto.
Qed.

Section ViewFacts.
Context {num : Type} `{JSNumber num}.

(** The month arrows always leave a valid calendar date in view, whatever
    the day of month and however many months they move. *)
Theorem changeMonth_valid (s : AppState num) (direction : Z)
    (Hcur : valid_date (currentDate s)) :
  valid_date (currentDate (changeMonth s direction)).
Proof.
  unfold changeMonth, set_currentDate, setMonth; simpl.
  destruct Hcur as [_ Hd].
  pose proof (days_in_month_range (year (currentDate s)) (month (currentDate s))).
  apply makeDay_valid. lia.
Qed.

(** [isFutureMonth] compares (year, month) pairs lexicographically and
    ignores the day of month; a year 0..99 counts as 1900..1999 on both
    sides, as [new Date(y, m, 1)] reads it. *)
Theorem isFutureMonth_iff (date now : Date)
    (Hd : 0 <= month date <= 11) (Hn : 0 <= month now <= 11) :
  let full_year y := if (0 <=? y) && (y <=? 99) then 1900 + y else y in
  isFutureMonth date now
  = (full_year (year now) <? full_year (year date))
    || ((full_year (year now) =? full_year (year date))
        && (month now <? month date)).
Proof.
  intros full_year. unfold isFutureMonth, newDate.
  fold (full_year (year date)). fold (full_year (year now)).
  rewrite !makeDay_small by lia. cbv zeta.
  rewrite (Z.div_small (month date)), (Z.mod_small (month date)) by lia.
  rewrite (Z.div_small (month now)), (Z.mod_small (month now)) by lia.
  rewrite !Z.add_0_r.
  pose proof (days_in_month_range (full_year (year date)) (month date)).
  pose proof (days_in_month_range (full_year (year now)) (month now)).
  destruct (Z.leb_spec 1 (days_in_month (full_year (year date)) (month date))); [|lia].
  destruct (Z.leb_spec 1 (days_in_month (full_year (year now)) (month now))); [|lia].
  unfold date_ltb; simpl. rewrite Z.ltb_irrefl, andb_false_r, orb_false_r.
  reflexivity.
Qed.

(** The "Delete" button of a transaction's long-press dialog removes every
    transaction carrying that id (all of them, when ids repeat) and no
    other, and changes nothing else; with no transaction of that id the
    state is unchanged. *)
Theorem confirmDelete_onPress_spec (s : AppState num) (i : string) :
  let s' := confirmDelete_onPress s i in
  (forall t, In t (transactions s') <-> In t (transactions s) /\ id t <> i)
  /\ (List.length (transactions s')
      + List.length (filter (fun t => String.eqb (id t) i) (transactions s))
      = List.length (transactions s))%nat
  /\ s' = set_transactions s (transactions s')
  /\ ((forall t, In t (transactions s) -> id t <> i) -> s' = s).
Proof.
  intros s'. subst s'. unfold confirmDelete_onPress, set_transactions; simpl.
  split; [|split; [|split]].
  - intros t. rewrite filter_In, negb_true_iff, String.eqb_neq. reflexivity.
  - apply (filter_split_length (fun t => String.eqb (id t) i)).
  - reflexivity.
  - intros Hnone. rewrite filter_none.
    + destruct s; reflexivity.
    + apply filter_all_false. intros t Ht. apply String.eqb_neq. apply Hnone. exact Ht.
Qed.

(** Deleting the transaction just added, by its id, gives back the prior
    ledger when no prior transaction carries the same id. *)
Theorem handleAddTransaction_undo (s : AppState num) (now : Date) (now_ms : N)
    (Ha : damount (newTransaction s) <> ""%string)
    (Hc : dcategory (newTransaction s) <> ""%string)
    (Hfresh : forall u, In u (transactions s) -> id u <> N_toString now_ms) :
  transactions (confirmDelete_onPress (fst (handleAddTransaction s now now_ms))
                  (N_toString now_ms))
  = transactions s.
Proof.
  destruct (handleAddTransaction_success s now now_ms Ha Hc) as [_ Htx].
  unfold confirmDelete_onPress, set_transactions; simpl. rewrite Htx. simpl.
  rewrite String.eqb_refl. simpl.
  apply (filter_none (fun t => String.eqb (id t) (N_toString now_ms))).
  apply filter_all_false. intros t Ht. apply String.eqb_neq. apply Hfresh. exact Ht.
Qed.

(** After a valid add, the viewed month's list gains exactly the new
    transaction, at its head, and the list of every other month is as it
    was. *)
Theorem handleAddTransaction_view (s : AppState num) (now : Date) (now_ms : N)
    (Hcur : valid_date (currentDate s)) (Hnow : valid_date now)
    (Ha : damount (newTransaction s) <> ""%string)
    (Hc : dcategory (newTransaction s) <> ""%string) :
  let s' := fst (handleAddTransaction s now now_ms) in
  let t := makeTransaction (newTransaction s) (currentDate s) now now_ms in
  currentDate s' = currentDate s
  /\ getFilteredTransactions (transactions s') (currentDate s')
     = t :: getFilteredTransactions (transactions s) (currentDate s)
  /\ (forall d, isSameMonth d (currentDate s) = false ->
      getFilteredTransactions (transactions s') d
      = getFilteredTransactions (transactions s) d).
Proof.
  intros s' t.
  assert (Hcd : currentDate s' = currentDate s).
  { subst s'. unfold handleAddTransaction, str_falsy.
    destruct (String.eqb_spec (damount (newTransaction s)) ""); [contradiction|].
    destruct (String.eqb_spec (dcategory (newTransaction s)) ""); [contradiction|].
    reflexivity. }
  destruct (handleAddTransaction_success s now now_ms Ha Hc) as [_ Htx].
  fold s' in Htx. fold t in Htx.
  assert (Hd : 1 <= day now <= 31).
  { destruct Hnow as [_ Hd].
    pose proof (days_in_month_range (year now) (month now)). lia. }
  assert (Ht : dateISO t = mkDate (year (currentDate s)) (month (currentDate s))
                 (Z.min (day now)
                    (days_in_month (year (currentDate s)) (month (currentDate s))))).
  { subst t. unfold makeTransaction; simpl. apply transactionDate_clamp; assumption. }
  clearbody s' t.
  split; [exact Hcd|]. rewrite Hcd, Htx.
  unfold getFilteredTransactions. simpl. rewrite Ht.
  split.
  - unfold isSameMonth; simpl. rewrite !Z.eqb_refl. reflexivity.
  - intros d Hne. unfold isSameMonth in *; simpl.
    rewrite (Z.eqb_sym (month (currentDate s))), (Z.eqb_sym (year (currentDate s))).
    rewrite Hne. reflexivity.
Qed.

(** The add button is shown only when the viewed month is not in the
    future; an add made there never creates a transaction dated in a
    future month. *)
Theorem handleAddTransaction_not_future (s : AppState num) (now : Date)
    (now_ms : N)
    (Hcur : valid_date (currentDate s)) (Hnow : valid_date now)
    (Hview : isFutureMonth (currentDate s) now = false)
    (Hok : snd (handleAddTransaction s now now_ms) = None) :
  forall t, In t (transactions (fst (handleAddTransaction s now now_ms))) ->
    In t (transactions s) \/ isFutureMonth (dateISO t) now = false.
Proof.
  revert Hok. unfold handleAddTransaction.
  destruct (str_falsy (damount (newTransaction s)) ||
            str_falsy (dcategory (newTransaction s))); simpl;
    [discriminate|intros _].
  intros t [<-|Hin]; [right|left; exact Hin].
  assert (Hd : 1 <= day now <= 31).
  { destruct Hnow as [_ Hd].
    pose proof (days_in_month_range (year now) (month now)). lia. }
  unfold makeTransaction; simpl.
  rewrite (transactionDate_clamp (currentDate s) now Hcur Hd).
  exact Hview.
Qed.

End ViewFacts.

(** ** Group contents *)

Section GroupContents.
Context {num : Type} `{JSNumber num}.

Lemma same_pair_spec (g : Group num) (t : Transaction num) :
  same_pair g t = true <-> gpair g = tpair t.
Proof.
  unfold same_pair, gpair, tpair. rewrite andb_true_iff, String.eqb_eq.
  destruct (TxType_eqb_spec (ttype t) (gtype g)) as [E|E]; split.
  - intros [_ ->]. rewrite E. reflexivity.
  - intros Hp. injection Hp as E1 E2. auto.
  - intros [Hf _]. discriminate.
  - intros Hp. injection Hp as E1 E2. congruence.
Qed.

Lemma key_match (g : Group num) (t : Transaction num) :
  gkey g = key_of (gtype g) (gcategory g) ->
  String.eqb (gkey g) (group_key t) = true <-> gpair g = tpair t.
Proof.
  intros Hk. rewrite String.eqb_eq, Hk. unfold group_key, gpair, tpair.
  fold (key_of (ttype t) (category t)). split.
  - intros E. apply key_of_inj in E as [-> ->]. reflexivity.
  - intros Hp. injection Hp as -> ->. reflexivity.
Qed.

Lemma contents_other (P : list (Transaction num)) (g : Group num)
    (t : Transaction num) :
  gpair g <> tpair t -> contents P g -> contents (P ++ [t]) g.
Proof.
  intros Hne [Ht Hs]. unfold contents. rewrite filter_app. simpl.
  destruct (same_pair g t) eqn:E.
  - apply same_pair_spec in E. contradiction.
  - rewrite app_nil_r. auto.
Qed.

Lemma sum_amounts_snoc (l : list (Transaction num)) (t : Transaction num) :
  sum_amounts (l ++ [t]) = js_add (sum_amounts l) (amount t).
Proof. unfold sum_amounts. rewrite fold_left_app. reflexivity. Qed.

Lemma group_add_contents (gs : list (Group num)) (t : Transaction num)
    (P : list (Transaction num)) :
  keys_ok gs -> NoDup (map gpair gs) ->
  (forall g, In g gs -> contents P g) ->
  (forall u, In u P -> tpair u = tpair t -> In (tpair t) (map gpair gs)) ->
  forall g, In g (group_add gs t) -> contents (P ++ [t]) g.
Proof.
  induction gs as [|g0 gs IH]; simpl; intros Hk Hnd Hc Hcov g Hg.
  - destruct Hg as [<-|[]]. unfold contents, group_push; simpl.
    rewrite filter_app.
    rewrite (filter_all_false _ P).
    + unfold same_pair; simpl. rewrite String.eqb_refl.
      destruct (TxType_eqb_spec (ttype t) (ttype t)) as [_|E]; [|contradiction].
      split; reflexivity.
    + intros u Hu. destruct (same_pair _ u) eqn:E; [|reflexivity].
      apply same_pair_spec in E. unfold gpair in E; simpl in E.
      exfalso. apply (Hcov u Hu). symmetry. exact E.
  - inversion Hnd as [|? ? Hnotin Hnd']; subst.
    assert (Hk0 : gkey g0 = key_of (gtype g0) (gcategory g0)) by (apply Hk; left; reflexivity).
    assert (Hk' : keys_ok gs) by (intros g' Hg'; apply Hk; simpl; auto).
    destruct (String.eqb (gkey g0) (group_key t)) eqn:E.
    + apply (key_match g0 t Hk0) in E.
      destruct Hg as [<-|Hg].
      * destruct (Hc g0 (or_introl eq_refl)) as [Ht Hs].
        unfold contents. change (same_pair (group_push g0 t)) with (same_pair g0).
        unfold group_push; simpl.
        rewrite filter_app, <- Ht. simpl.
        assert (Et : same_pair g0 t = true) by (apply same_pair_spec; exact E).
        rewrite Et. split; [reflexivity|].
        rewrite sum_amounts_snoc, <- Hs. reflexivity.
      * apply contents_other; [|apply Hc; auto].
        intros Hp. apply Hnotin. rewrite E, <- Hp. apply in_map. exact Hg.
    + assert (Hne : gpair g0 <> tpair t).
      { intros Hp. apply (key_match g0 t Hk0) in Hp. congruence. }
      destruct Hg as [<-|Hg].
      * apply contents_other; [exact Hne|apply Hc; auto].
      * apply (IH Hk' Hnd'); [intros g' Hg'; apply Hc; auto| |exact Hg].
        intros u Hu Hp. destruct (Hcov u Hu Hp) as [Hp'|Hp']; [|exact Hp'].
        contradiction.
Qed.

Lemma group_fold_contents (l : list (Transaction num)) (gs : list (Group num))
    (P : list (Transaction num)) :
  keys_ok gs -> NoDup (map gpair gs) ->
  (forall g, In g gs -> contents P g) ->
  (forall u, In u P -> In (tpair u) (map gpair gs)) ->
  forall g, In g (fold_left group_add l gs) -> contents (P ++ l) g.
Proof.
  revert gs P. induction l as [|t l IH]; intros gs P Hk Hnd Hc Hcov; simpl.
  - rewrite app_nil_r. exact Hc.
  - replace (P ++ t :: l) with ((P ++ [t]) ++ l) by (rewrite <- app_assoc; reflexivity).
    apply IH.
    + apply group_add_keys_ok. exact Hk.
    + apply group_add_nodup; assumption.
    + apply group_add_contents; try assumption.
      intros u Hu Hp. rewrite <- Hp. apply Hcov. exact Hu.
    + intros u Hu. rewrite (group_add_pairs gs t Hk). apply in_app_or in Hu.
      destruct Hu as [Hu|[<-|[]]]; [left; apply Hcov; exact Hu|right; reflexivity].
Qed.

(** Every group of the grouped view holds exactly the filtered
    transactions of its (type, category) pair, in ledger order (newest
    added first, not sorted by date), and its total is the left-to-right
    sum of their amounts from 0: [groups[key].total += t.amount] adds the
    same amounts in the same order, so this holds for any number type,
    doubles included. *)
Theorem getGroupedTransactions_contents (filtered : list (Transaction num)) :
  Forall (fun g => gkey g = key_of (gtype g) (gcategory g)
                   /\ gtransactions g
                      = filter (fun t => TxType_eqb (ttype t) (gtype g)
                                         && String.eqb (category t) (gcategory g))
                          filtered
                   /\ total g = sum_amounts (gtransactions g))
    (getGroupedTransactions filtered).
Proof.
  unfold getGroupedTransactions, js_sort. rewrite Forall_forall. intros g Hg.
  pose proof (js_sort_perm group_cmp (fold_left group_add filtered []) []) as Hperm.
  rewrite app_nil_r in Hperm.
  apply (Permutation_in _ Hperm) in Hg.
  destruct (group_fold_facts filtered [] (fun g (Hg : In g []) => match Hg with end)
              (NoDup_nil _)) as [Hk _].
  split; [apply Hk; exact Hg|].
  apply (group_fold_contents filtered [] [] (fun g (Hg : In g []) => match Hg with end)
           (NoDup_nil _)); [intros g' []|intros u []|exact Hg].
Qed.

(** The (type, category) pairs of the grouped view are those of the
    filtered transactions. *)
Lemma grouped_pairs (filtered : list (Transaction num)) (p : TxType * string) :
  In p (map gpair (getGroupedTransactions filtered))
  <-> exists t, In t filtered /\ p = tpair t.
Proof.
  unfold getGroupedTransactions, js_sort.
  destruct (group_fold_facts filtered [] (fun g (Hg : In g []) => match Hg with end)
              (NoDup_nil _)) as [_ [_ Hp]].
  pose proof (js_sort_perm group_cmp (fold_left group_add filtered []) []) as Hperm.
  rewrite app_nil_r in Hperm.
  pose proof (Permutation_map gpair Hperm) as Hpm.
  transitivity (In p (map gpair (fold_left group_add filtered [])));
    [split; apply Permutation_in; [exact Hpm|symmetry; exact Hpm]|].
  rewrite Hp. simpl. tauto.
Qed.

End GroupContents.

(** ** Totals and registry across category deletion *)

Lemma filter_map_commute {A} (p : A -> bool) (f : A -> A) (l : list A) :
  (forall x, p (f x) = p x) -> filter p (map f l) = map f (filter p l).
Proof.
  intros Hp. induction l as [|x l IH]; simpl; [reflexivity|].
  rewrite Hp. destruct (p x); simpl; rewrite IH; reflexivity.
Qed.

Section DeletionFacts.
Context {num : Type} `{JSNumber num}.

Lemma sum_amounts_map (f : Transaction num -> Transaction num)
    (l : list (Transaction num)) :
  (forall t, amount (f t) = amount t) -> sum_amounts (map f l) = sum_amounts l.
Proof.
  intros Ha. unfold sum_amounts. generalize (js_zero (num:=num)).
  induction l as [|t l IH]; intros a; simpl; [reflexivity|].
  rewrite Ha. apply IH.
Qed.

Lemma getTotals_map (f : Transaction num -> Transaction num)
    (l : list (Transaction num)) (d : Date) :
  (forall t, dateISO (f t) = dateISO t /\ ttype (f t) = ttype t
             /\ amount (f t) = amount t) ->
  getTotals (getFilteredTransactions (map f l) d)
  = getTotals (getFilteredTransactions l d).
Proof.
  intros Hf. unfold getTotals, getFilteredTransactions.
  rewrite (filter_map_commute (fun t => isSameMonth (dateISO t) d))
    by (intros t; destruct (Hf t) as [-> _]; reflexivity).
  rewrite !(filter_map_commute (is_type _))
    by (intros t; unfold is_type; destruct (Hf t) as [_ [-> _]]; reflexivity).
  rewrite !sum_amounts_map by (intros t; apply Hf).
  reflexivity.
Qed.

(** Reassigning a category's transactions to another category never
    changes the income, expense or balance shown for any month, for any
    number type: only category fields change. *)
Theorem executeCategoryDeletion_reassign_totals (s : AppState num)
    (C : string) (T : TxType) (d : Date) :
  getTotals (getFilteredTransactions
               (transactions (fst (executeCategoryDeletion s C T ActReassign))) d)
  = getTotals (getFilteredTransactions (transactions s) d).
Proof.
  unfold executeCategoryDeletion.
  destruct (str_falsy (reassignCategory s)); simpl; [reflexivity|].
  apply getTotals_map. intros t.
  destruct (depends_on C T t); repeat split; reflexivity.
Qed.

(** After a category deletion that went through, the deleted (type,
    category) pair has no group in the grouped view of any month: in
    "delete" mode its transactions are gone, in "reassign" mode they carry
    the target, which the resolver never offers as the deleted name. *)
Theorem executeCategoryDeletion_group_gone (s : AppState num) (C : string)
    (T : TxType) (a : DeleteAction) (d : Date)
    (Htarget : reassignCategory s <> C)
    (Hok : snd (executeCategoryDeletion s C T a) = None) :
  ~ In (T, C) (map gpair (getGroupedTransactions
         (getFilteredTransactions
            (transactions (fst (executeCategoryDeletion s C T a))) d))).
Proof.
  rewrite grouped_pairs. intros [t [Ht Hp]].
  unfold getFilteredTransactions in Ht. apply filter_In in Ht as [Ht _].
  assert (Hdep : depends_on C T t = true).
  { unfold depends_on, tpair in *. injection Hp as E1 E2. rewrite <- E1, <- E2.
    rewrite String.eqb_refl. destruct (TxType_eqb_spec T T); [reflexivity|contradiction]. }
  revert Ht Hok. unfold executeCategoryDeletion. destruct a.
  - simpl. intros Ht _. apply filter_In in Ht as [_ Hb].
    rewrite Hdep in Hb. discriminate.
  - destruct (str_falsy (reassignCategory s)); simpl; [discriminate|].
    intros Ht _. apply in_map_iff in Ht as [u [Eu Hu]].
    destruct (depends_on C T u) eqn:Du.
    + subst t. unfold depends_on in Hdep; simpl in Hdep.
      apply andb_true_iff in Hdep as [Hc _]. apply String.eqb_eq in Hc.
      contradiction.
    + subst u. rewrite Hdep in Du. discriminate.
Qed.

(** Adding a category and deleting one keep both registry lists free of
    duplicates. *)
Theorem registry_nodup_preserved (s : AppState num)
    (Hnd : forall ty, NoDup (reg_get (categories s) ty)) :
  (forall ty, NoDup (reg_get (categories (fst (handleAddNewCategory s))) ty))
  /\ (forall C T a ty,
        NoDup (reg_get (categories (fst (executeCategoryDeletion s C T a))) ty)).
Proof.
  split.
  - intros ty. unfold handleAddNewCategory, str_falsy.
    destruct (String.eqb (trim (newCategoryName s)) ""); [apply Hnd|].
    destruct (existsb (String.eqb (trim (newCategoryName s)))
                (reg_get (categories s) (dtype (newTransaction s)))) eqn:E;
      [apply Hnd|]. simpl.
    assert (Hnin : ~ In (trim (newCategoryName s))
                     (reg_get (categories s) (dtype (newTransaction s)))).
    { intros Hin. apply existsb_eqb_In in Hin. congruence. }
    destruct (dtype (newTransaction s)), ty; simpl; try apply (Hnd Expense);
      try apply (Hnd Income);
      eapply Permutation_NoDup; try apply Permutation_cons_append;
      constructor; [exact Hnin|apply (Hnd Income)|exact Hnin|apply (Hnd Expense)].
  - intros C T a ty. unfold executeCategoryDeletion.
    assert (Hdel : NoDup (reg_get (reg_set (categories s) T
                     (filter (fun c => negb (String.eqb c C))
                        (reg_get (categories s) T))) ty)).
    { destruct T, ty; simpl; try apply NoDup_filter;
        first [apply (Hnd Income) | apply (Hnd Expense)]. }
    destruct a; [exact Hdel|].
    destruct (str_falsy (reassignCategory s)); [apply Hnd|exact Hdel].
Qed.

(** Deleting a category opens the resolver exactly when a transaction of
    the form's type depends on it; otherwise the confirmed deletion leaves
    the ledger as it was and takes the name out of that type's list. *)
Theorem handleDeleteCategoryInitiation_spec (s : AppState num) (name : string) :
  let ty := dtype (newTransaction s) in
  ((exists t, In t (transactions s) /\ category t = name /\ ttype t = ty) ->
   exists s', handleDeleteCategoryInitiation s name = OpenResolver s'
              /\ deleteModalVisible s' = true
              /\ categoryToDelete s' = Some (name, ty)
              /\ transactions s' = transactions s
              /\ categories s' = categories s
              /\ newTransaction s' = newTransaction s)
  /\ ((forall t, In t (transactions s) -> category t = name -> ttype t <> ty) ->
      handleDeleteCategoryInitiation s name = ConfirmDeletion name ty
      /\ transactions (fst (executeCategoryDeletion s name ty ActDelete))
         = transactions s
      /\ reg_get (categories (fst (executeCategoryDeletion s name ty ActDelete))) ty
         = filter (fun c => negb (String.eqb c name)) (reg_get (categories s) ty)).
Proof.
  intros ty. unfold handleDeleteCategoryInitiation. fold ty. split.
  - intros [t [Ht [Hc Hty]]].
    assert (E : existsb (depends_on name ty) (transactions s) = true).
    { apply existsb_exists. exists t. split; [exact Ht|].
      unfold depends_on. rewrite Hc, String.eqb_refl, Hty. simpl.
      destruct (TxType_eqb_spec ty ty); [reflexivity|contradiction]. }
    rewrite E. eexists. split; [reflexivity|]. repeat split; reflexivity.
  - intros Hnone.
    assert (Hf : filter (depends_on name ty) (transactions s) = []).
    { apply filter_all_false. intros t Ht. unfold depends_on.
      destruct (String.eqb_spec (category t) name) as [Hc|]; [|reflexivity].
      destruct (TxType_eqb_spec (ttype t) ty) as [Hty|]; [|reflexivity].
      exfalso. exact (Hnone t Ht Hc Hty). }
    assert (E : existsb (depends_on name ty) (transactions s) = false).
    { destruct (existsb (depends_on name ty) (transactions s)) eqn:E; [|reflexivity].
      apply existsb_exists in E as [t [Ht Hd]].
      assert (In t (filter (depends_on name ty) (transactions s)))
        by (apply filter_In; auto).
      rewrite Hf in H0. destruct H0. }
    rewrite E. split; [reflexivity|].
    unfold executeCategoryDeletion; simpl. rewrite reg_get_set_same.
    split; [apply filter_none; exact Hf|reflexivity].
Qed.

(** After a category deletion that went through, the form no longer
    selects the deleted name (whatever the form's type), the resolver is
    closed and its target cleared. *)
Theorem executeCategoryDeletion_resets_form (s : AppState num) (C : string)
    (T : TxType) (a : DeleteAction)
    (Hok : snd (executeCategoryDeletion s C T a) = None) :
  let s' := fst (executeCategoryDeletion s C T a) in
  (dcategory (newTransaction s') = C -> C = ""%string)
  /\ (dcategory (newTransaction s) <> C -> newTransaction s' = newTransaction s)
  /\ dtype (newTransaction s') = dtype (newTransaction s)
  /\ deleteModalVisible s' = false
  /\ categoryToDelete s' = None
  /\ reassignCategory s' = ""%string.
Proof.
  intros s'. subst s'. revert Hok. unfold executeCategoryDeletion.
  assert (Hgen : forall txs,
    let s' := mkState (num:=num) txs
         (reg_set (categories s) T (filter (fun c => negb (String.eqb c C))
                                     (reg_get (categories s) T)))
         (modalVisible s)
         (if String.eqb (dcategory (newTransaction s)) C
          then mkDraft (dtype (newTransaction s)) (damount (newTransaction s)) ""
                 (dnote (newTransaction s))
          else newTransaction s)
         (newCategoryName s) (isAddingCategory s) (currentDate s) false None "" in
    (dcategory (newTransaction s') = C -> C = ""%string)
    /\ (dcategory (newTransaction s) <> C -> newTransaction s' = newTransaction s)
    /\ dtype (newTransaction s') = dtype (newTransaction s)
    /\ deleteModalVisible s' = false
    /\ categoryToDelete s' = None
    /\ reassignCategory s' = ""%string).
  { intros txs s'. subst s'. simpl.
    destruct (String.eqb_spec (dcategory (newTransaction s)) C); simpl.
    - split; [intros E; symmetry; exact E|].
      split; [intros Hne; contradiction|]. repeat split.
    - split; [intros E; contradiction|]. repeat split. }
  destruct a; [intros _; exact (Hgen _)|].
  destruct (str_falsy (reassignCategory s)); [discriminate|].
  intros _. exact (Hgen _).
Qed.

End DeletionFacts.

(** ** Category form *)

Section CategoryForm.
Context {num : Type} `{JSNumber num}.

(** After a category is added, the form selects it and clears the name
    input; typing the same name again (up to surrounding spaces) and
    adding is then refused as a duplicate, with no state change. *)
Theorem handleAddNewCategory_reentry (s : AppState num) (x : string)
    (Hne : trim (newCategoryName s) <> ""%string)
    (Hnew : ~ In (trim (newCategoryName s))
              (reg_get (categories s) (dtype (newTransaction s))))
    (Hx : trim x = trim (newCategoryName s)) :
  let s1 := fst (handleAddNewCategory s) in
  dcategory (newTransaction s1) = trim (newCategoryName s)
  /\ newCategoryName s1 = ""%string
  /\ handleAddNewCategory (setNewCategoryName s1 x)
     = (setNewCategoryName s1 x, Some "Category already exists."%string).
Proof.
  intros s1.
  assert (E1 : existsb (String.eqb (trim (newCategoryName s)))
                 (reg_get (categories s) (dtype (newTransaction s))) = false).
  { destruct (existsb _ _) eqn:E; [|reflexivity].
    apply existsb_eqb_In in E. contradiction. }
  assert (Hs1 : s1 = fst (handleAddNewCategory s)) by reflexivity.
  unfold handleAddNewCategory, str_falsy in Hs1.
  destruct (String.eqb_spec (trim (newCategoryName s)) ""); [contradiction|].
  rewrite E1 in Hs1. simpl in Hs1. rewrite Hs1. clear Hs1 s1.
  split; [reflexivity|]. split; [reflexivity|].
  unfold handleAddNewCategory, setNewCategoryName, str_falsy; simpl.
  rewrite Hx.
  destruct (String.eqb_spec (trim (newCategoryName s)) ""); [contradiction|].
  rewrite reg_get_set_same.
  replace (existsb _ _) with true; [reflexivity|].
  symmetry. apply existsb_eqb_In. apply in_or_app. right. left. reflexivity.
Qed.

End CategoryForm.

(** ** Expanded groups *)

Lemma obj_get_set (o : BoolObj) (k k' : string) (v : bool) :
  obj_get (obj_set o k v) k' = if String.eqb k k' then Some v else obj_get o k'.
Proof.
  induction o as [|[k0 v0] o IH]; simpl; [reflexivity|].
  destruct (String.eqb_spec k0 k) as [->|Hne]; simpl.
  - destruct (String.eqb k k'); reflexivity.
  - rewrite IH. destruct (String.eqb_spec k k') as [<-|]; [|reflexivity].
    apply String.eqb_neq in Hne. rewrite Hne. reflexivity.
Qed.

(** Tapping a group header flips whether that group is expanded (an
    absent entry counts as collapsed) and leaves every other group as it
    was; tapping it twice restores the view. *)
Theorem toggleCategory_spec (prev : BoolObj) (key k : string) :
  truthy (obj_get (toggleCategory prev key) k)
  = (if String.eqb key k then negb (truthy (obj_get prev k))
     else truthy (obj_get prev k))
  /\ truthy (obj_get (toggleCategory (toggleCategory prev key) key) k)
     = truthy (obj_get prev k).
Proof.
  unfold toggleCategory. rewrite !obj_get_set, String.eqb_refl.
  destruct (String.eqb_spec key k) as [<-|]; simpl.
  - destruct (obj_get prev key) as [[]|]; split; reflexivity.
  - split; reflexivity.
Qed.

(** ** Totals after an add *)

Section AddTotals.
Context {num : Type} `{JSNumber num}.

(** After a valid add, the viewed month's total of the other type than the
    new transaction's is unchanged, for any number type (doubles
    included); the total of the new transaction's type grows by the parsed
    amount when addition is exact (associative and commutative with 0 as
    identity, as on integer amounts). *)
Theorem handleAddTransaction_totals (s : AppState num) (now : Date) (now_ms : N)
    (Hcur : valid_date (currentDate s)) (Hnow : valid_date now)
    (Ha : damount (newTransaction s) <> ""%string)
    (Hc : dcategory (newTransaction s) <> ""%string) :
  let ty := dtype (newTransaction s) in
  let a := js_parseFloat (damount (newTransaction s)) in
  let s' := fst (handleAddTransaction s now now_ms) in
  let view st := getFilteredTransactions (transactions st) (currentDate st) in
  sum_amounts (filter (is_type (other_type ty)) (view s'))
  = sum_amounts (filter (is_type (other_type ty)) (view s))
  /\ ((forall a b c, js_add a (js_add b c) = js_add (js_add a b) c) ->
      (forall a b, js_add a b = js_add b a) ->
      (forall a, js_add js_zero a = a) ->
      sum_amounts (filter (is_type ty) (view s'))
      = js_add a (sum_amounts (filter (is_type ty) (view s)))).
Proof.
  intros ty a s' view.
  assert (Hcd : currentDate s' = currentDate s).
  { subst s'. unfold handleAddTransaction, str_falsy.
    destruct (String.eqb_spec (damount (newTransaction s)) ""); [contradiction|].
    destruct (String.eqb_spec (dcategory (newTransaction s)) ""); [contradiction|].
    reflexivity. }
  destruct (handleAddTransaction_success s now now_ms Ha Hc) as [_ Htx].
  fold s' in Htx.
  assert (Hd : 1 <= day now <= 31).
  { destruct Hnow as [_ Hd].
    pose proof (days_in_month_range (year now) (month now)). lia. }
  set (t := makeTransaction (newTransaction s) (currentDate s) now now_ms) in Htx.
  assert (Ht : dateISO t = mkDate (year (currentDate s)) (month (currentDate s))
                 (Z.min (day now)
                    (days_in_month (year (currentDate s)) (month (currentDate s))))).
  { subst t. unfold makeTransaction; simpl. apply transactionDate_clamp; assumption. }
  assert (Hty : ttype t = ty) by reflexivity.
  assert (Ham : amount t = a) by reflexivity.
  assert (Hsm : isSameMonth (dateISO t) (currentDate s) = true).
  { rewrite Ht. unfold isSameMonth; simpl. rewrite !Z.eqb_refl. reflexivity. }
  clearbody s' t. subst view. cbv beta. rewrite Hcd, Htx.
  assert (Hv : getFilteredTransactions (t :: transactions s) (currentDate s)
               = t :: getFilteredTransactions (transactions s) (currentDate s)).
  { unfold getFilteredTransactions at 1. simpl. rewrite Hsm. reflexivity. }
  assert (E1 : is_type ty t = true)
    by (unfold is_type; rewrite Hty; destruct ty; reflexivity).
  assert (E2 : is_type (other_type ty) t = false)
    by (unfold is_type; rewrite Hty; destruct ty; reflexivity).
  rewrite Hv. simpl filter. rewrite E1, E2.
  split; [reflexivity|]. intros add_assoc add_comm add_zero_l.
  unfold sum_amounts.
  change (fold_left (fun acc curr => js_add acc (amount curr))
            (t :: filter (is_type ty)
                    (getFilteredTransactions (transactions s) (currentDate s)))
            js_zero)
    with (fold_sum amount (t :: filter (is_type ty)
                    (getFilteredTransactions (transactions s) (currentDate s)))).
  rewrite (fold_sum_cons add_assoc add_comm add_zero_l), Ham. reflexivity.
Qed.

End AddTotals.

(** ** Concrete runs of the navigation and form handlers *)

(** From 31 January 2025 the "next month" arrow lands on 3 March 2025. *)
Lemma changeMonth_spec_witness :
  currentDate (changeMonth (sample_state (num:=Z) sample_ledger emptyDraft
                              jan_31_2025 "") 1)
  = mkDate 2025 2 3.
Proof.
  assert (V : valid_date (currentDate (sample_state (num:=Z) sample_ledger
                                         emptyDraft jan_31_2025 "")))
    by (unfold valid_date, days_in_month, is_leap; simpl; lia).
  destruct (changeMonth_spec _ 1 V) as [E _]. rewrite E. reflexivity.
Defined.

(** From 15 December 2024, forward then back, and back then forward. *)
Lemma changeMonth_round_trip_witness :
  let s := sample_state (num:=Z) sample_ledger emptyDraft (mkDate 2024 11 15) "" in
  currentDate (changeMonth (changeMonth s 1) (-1)) = currentDate s
  /\ currentDate (changeMonth (changeMonth s (-1)) 1) = currentDate s.
Proof.
  intros s. apply changeMonth_round_trip.
  - unfold valid_date, days_in_month, is_leap; simpl; lia.
  - simpl. lia.
Defined.

(** Picking December in picker year 99 views 1 December 1999. *)
Lemma selectMonthYear_spec_witness :
  let s := sample_state (num:=Z) sample_ledger emptyDraft march_2025 "" in
  currentDate (selectMonthYear s 99 11) = mkDate 1999 11 1
  /\ valid_date (currentDate (selectMonthYear s 99 11)).
Proof.
  intros s. destruct (selectMonthYear_spec s 99 11 ltac:(lia)) as [E V].
  split; [rewrite E; reflexivity|exact V].
Defined.

(** Thirteen months back from 31 January 2025 is still a valid date. *)
Lemma changeMonth_valid_witness :
  valid_date (currentDate (changeMonth (sample_state (num:=Z) sample_ledger
                                          emptyDraft jan_31_2025 "") (-13))).
Proof.
  apply changeMonth_valid. unfold valid_date, days_in_month, is_leap; simpl; lia.
Defined.

(** January 2026 is a future month on 31 December 2025. *)
Lemma isFutureMonth_iff_witness :
  isFutureMonth (mkDate 2026 0 1) (mkDate 2025 11 31) = true.
Proof.
  rewrite (isFutureMonth_iff (mkDate 2026 0 1) (mkDate 2025 11 31)
             ltac:(simpl; lia) ltac:(simpl; lia)).
  reflexivity.
Defined.

(** Adding 12 for Food on the sample ledger, then deleting it. *)
Lemma handleAddTransaction_undo_witness :
  let s := sample_state (num:=Z) sample_ledger (mkDraft Expense "12" "Food" "")
             march_2025 "" in
  transactions (confirmDelete_onPress (fst (handleAddTransaction s jan_31_2025
                                              now_ms_sample))
                  (N_toString now_ms_sample))
  = sample_ledger.
Proof.
  intros s. apply (handleAddTransaction_undo s jan_31_2025 now_ms_sample).
  - simpl. discriminate.
  - simpl. discriminate.
  - intros u Hu E. simpl in Hu.
    repeat (destruct Hu as [<-|Hu]; [vm_compute in E; discriminate E|]).
    destruct Hu.
Defined.

(** The same add as seen in the March 2025 view. *)
Lemma handleAddTransaction_view_witness :
  let s := sample_state (num:=Z) sample_ledger (mkDraft Expense "12" "Food" "")
             march_2025 "" in
  let s' := fst (handleAddTransaction s jan_31_2025 now_ms_sample) in
  let t := makeTransaction (newTransaction s) (currentDate s) jan_31_2025
             now_ms_sample in
  getFilteredTransactions (transactions s') (currentDate s')
  = t :: getFilteredTransactions (transactions s) (currentDate s).
Proof.
  intros s s' t.
  assert (V1 : valid_date (currentDate s))
    by (unfold valid_date, days_in_month, is_leap; simpl; lia).
  assert (V2 : valid_date jan_31_2025)
    by (unfold valid_date, days_in_month, is_leap; simpl; lia).
  destruct (handleAddTransaction_view s jan_31_2025 now_ms_sample V1 V2
              ltac:(simpl; discriminate) ltac:(simpl; discriminate)) as [_ [E _]].
  exact E.
Defined.

(** An add made while viewing the current month, January 2025. *)
Lemma handleAddTransaction_not_future_witness :
  let s := sample_state (num:=Z) sample_ledger (mkDraft Income "900" "Salary" "")
             jan_31_2025 "" in
  Forall (fun t => In t (transactions s) \/ isFutureMonth (dateISO t) jan_31_2025 = false)
    (transactions (fst (handleAddTransaction s jan_31_2025 now_ms_sample))).
Proof.
  intros s. apply Forall_forall. apply handleAddTransaction_not_future.
  - unfold valid_date, days_in_month, is_leap; simpl; lia.
  - unfold valid_date, days_in_month, is_leap; simpl; lia.
  - reflexivity.
  - reflexivity.
Defined.

(** Reassigning Food to Bills in March 2025 leaves no Food expense group. *)
Lemma executeCategoryDeletion_group_gone_witness :
  let s := sample_state (num:=Z) sample_ledger emptyDraft march_2025 "Bills" in
  ~ In (Expense, "Food"%string)
      (map gpair (getGroupedTransactions
         (getFilteredTransactions
            (transactions (fst (executeCategoryDeletion s "Food" Expense
                                  ActReassign))) march_2025))).
Proof.
  intros s. apply executeCategoryDeletion_group_gone.
  - simpl. discriminate.
  - reflexivity.
Defined.

(** The default registry has no duplicates, and keeps none. *)
Lemma registry_nodup_preserved_witness :
  let s := sample_state (num:=Z) sample_ledger (mkDraft Expense "" "" "")
             march_2025 "" in
  (forall ty, NoDup (reg_get (categories (fst (handleAddNewCategory s))) ty))
  /\ (forall C T a ty,
        NoDup (reg_get (categories (fst (executeCategoryDeletion s C T a))) ty)).
Proof.
  intros s. apply registry_nodup_preserved.
  intros ty. destruct ty; simpl; repeat constructor; simpl; intuition discriminate.
Defined.

(** Deleting Food while the form selects Food clears the form's category. *)
Lemma executeCategoryDeletion_resets_form_witness :
  let s := sample_state (num:=Z) sample_ledger (mkDraft Expense "12" "Food" "")
             march_2025 "" in
  let s' := fst (executeCategoryDeletion s "Food" Expense ActDelete) in
  (dcategory (newTransaction s') = "Food"%string -> "Food"%string = ""%string)
  /\ (dcategory (newTransaction s) <> "Food"%string ->
      newTransaction s' = newTransaction s)
  /\ dtype (newTransaction s') = dtype (newTransaction s)
  /\ deleteModalVisible s' = false
  /\ categoryToDelete s' = None
  /\ reassignCategory s' = ""%string.
Proof.
  intros s s'. apply executeCategoryDeletion_resets_form. reflexivity.
Defined.

(** Adding "  Coffee" to the Expense list, then typing "Coffee " again. *)
Lemma handleAddNewCategory_reentry_witness :
  let s := setNewCategoryName (sample_state (num:=Z) [] emptyDraft march_2025 "")
             "  Coffee" in
  let s1 := fst (handleAddNewCategory s) in
  dcategory (newTransaction s1) = trim (newCategoryName s)
  /\ newCategoryName s1 = ""%string
  /\ handleAddNewCategory (setNewCategoryName s1 "Coffee ")
     = (setNewCategoryName s1 "Coffee ", Some "Category already exists."%string).
Proof.
  intros s s1. apply handleAddNewCategory_reentry.
  - intros E. vm_compute in E. discriminate E.
  - intros Hin. vm_compute in Hin. intuition discriminate.
  - reflexivity.
Defined.

(** Adding an expense of 12 in March 2025 on the sample ledger: that
    month's expenses grow from 70 to 82, its income stays 1000. *)
Lemma handleAddTransaction_totals_witness :
  let s := sample_state (num:=Z) sample_ledger (mkDraft Expense "12" "Food" "")
             march_2025 "" in
  let s' := fst (handleAddTransaction s jan_31_2025 now_ms_sample) in
  let view st := getFilteredTransactions (transactions st) (currentDate st) in
  sum_amounts (filter (is_type Income) (view s'))
  = sum_amounts (filter (is_type Income) (view s))
  /\ sum_amounts (filter (is_type Expense) (view s'))
     = js_add 12 (sum_amounts (filter (is_type Expense) (view s))).
Proof.
  intros s s' view.
  assert (V1 : valid_date (currentDate s))
    by (unfold valid_date, days_in_month, is_leap; simpl; lia).
  assert (V2 : valid_date jan_31_2025)
    by (unfold valid_date, days_in_month, is_leap; simpl; lia).
  destruct (handleAddTransaction_totals s jan_31_2025 now_ms_sample V1 V2
              ltac:(simpl; discriminate) ltac:(simpl; discriminate)) as [E1 E2].
  split; [exact E1|].
  apply E2; intros; simpl; lia.
Defined.
